(** * Windsurf recent projects (Raycast extension): the extraction of the
    recent-folder list from Windsurf's [storage.json], the command's view and
    the launcher, embedded from [src/recent-projects.tsx].

    The storage file is an externally owned JSON document.  The code walks it
    with JavaScript property reads, optional chaining and the array methods
    [find], [filter] and [map], inside one [try]/[catch].  The embedding keeps
    that shape: JSON values as a tree, [undefined] as [None], a thrown
    [TypeError] as [Throw] of a small error monad, and the outer [catch] as
    [try_catch]. *)

From Stdlib Require Import QArith Ascii String.
From stdpp Require Import gmap strings list.

Set Warnings "-register-all".
#[local] Open Scope string_scope.
#[local] Open Scope list_scope.

(** ** JavaScript values produced by [JSON.parse] *)

(** A parsed JSON document.  An object is a finite map from property names to
    values (the code only ever reads properties by name). *)
Inductive json : Type :=
  | JNull
  | JBool (b : bool)
  | JNumber (q : Q)
  | JString (s : string)
  | JArray (elems : list json)
  | JObject (fields : gmap string json).

(** A JavaScript value as the code sees it: [None] is [undefined]. *)
Abbreviation jsval := (option json).

(** ** Exceptions *)

(** Outcome of evaluating an expression: a value, or a thrown exception.
    Every exception this code can meet is handled alike, so it carries no
    payload. *)
Inductive result (A : Type) : Type :=
  | Ok (a : A)
  | Throw.
Arguments Ok {A} a.
Arguments Throw {A}.

#[global] Instance result_ret : MRet result := fun _ a => Ok a.
#[global] Instance result_bind : MBind result := fun _ _ f m =>
  match m with
  | Ok a => f a
  | Throw => Throw
  end.

(** [try { return e } catch (error) { return h }] *)
Definition try_catch {A : Type} (e : result A) (h : A) : A :=
  match e with
  | Ok a => a
  | Throw => h
  end.

(** ** Primitive operations of the language *)

(** [v.k], for the property names read in this file ([lastKnownMenubarData],
    [menus], [File], [items], [id], [label], [uri], [submenu], [path]).
    Reading a property of [undefined] or [null] throws a [TypeError]; none of
    these names is a property of strings, numbers, booleans or arrays, nor
    inherited by plain objects, so there the read gives [undefined] unless the
    object holds the key itself. *)
Definition prop (v : jsval) (k : string) : result jsval :=
  match v with
  | None => Throw
  | Some JNull => Throw
  | Some (JObject fields) => Ok (fields !! k)
  | Some _ => Ok None
  end.

(** [v?.k]: [undefined] when [v] is [undefined] or [null], else [v.k]. *)
Definition opt_prop (v : jsval) (k : string) : result jsval :=
  match v with
  | None => Ok None
  | Some JNull => Ok None
  | Some _ => prop v k
  end.

(** [ToBoolean]: [undefined], [null], [false], zero and the empty string are
    falsy, everything else (every array and object too) is truthy. *)
Definition truthy (v : jsval) : bool :=
  match v with
  | None => false
  | Some JNull => false
  | Some (JBool b) => b
  | Some (JNumber q) => negb (Qeq_bool q 0)
  | Some (JString s) => negb (String.eqb s "")
  | Some (JArray _) => true
  | Some (JObject _) => true
  end.

(** [typeof v] *)
Definition typeof (v : jsval) : string :=
  match v with
  | None => "undefined"
  | Some JNull => "object"
  | Some (JBool _) => "boolean"
  | Some (JNumber _) => "number"
  | Some (JString _) => "string"
  | Some (JArray _) => "object"
  | Some (JObject _) => "object"
  end.

(** [v === s] for a string literal [s]: no coercion. *)
Definition strict_eq_str (v : jsval) (s : string) : bool :=
  match v with
  | Some (JString t) => String.eqb t s
  | _ => false
  end.

(** [Array.prototype.find] over the elements, with a callback that may throw:
    the elements are visited from index 0 and the visit stops at the first one
    the callback accepts. *)
Fixpoint array_find (f : json -> result bool) (l : list json) : result jsval :=
  match l with
  | [] => Ok None
  | x :: l' =>
      b ← f x;
      if b : bool then Ok (Some x) else array_find f l'
  end.

(** [Array.prototype.filter]: the callback runs on every element in order. *)
Fixpoint array_filter (f : json -> result bool) (l : list json)
  : result (list json) :=
  match l with
  | [] => Ok []
  | x :: l' =>
      b ← f x;
      r ← array_filter f l';
      Ok (if b : bool then x :: r else r)
  end.

(** [Array.prototype.map] *)
Fixpoint array_map {B : Type} (f : json -> result B) (l : list json)
  : result (list B) :=
  match l with
  | [] => Ok []
  | x :: l' =>
      y ← f x;
      r ← array_map f l';
      Ok (y :: r)
  end.

(** [v.find(f)], [v.filter(f)], [v.map(f)]: only an array has these methods.
    On [undefined] or [null] the property read throws; on any other value the
    property is [undefined], or (on an object holding that key) a JSON value,
    and calling it throws. *)
Definition call_find (v : jsval) (f : json -> result bool) : result jsval :=
  match v with
  | Some (JArray l) => array_find f l
  | _ => Throw
  end.

Definition call_filter (v : jsval) (f : json -> result bool)
  : result (list json) :=
  match v with
  | Some (JArray l) => array_filter f l
  | _ => Throw
  end.

(** [s.split(sep)] for a one-character separator: the segments between the
    separators, never an empty array ([""] splits into [[""]]). *)
Fixpoint split (sep : Ascii.ascii) (s : string) : list string :=
  match s with
  | EmptyString => [EmptyString]
  | String c s' =>
      if Ascii.eqb c sep then EmptyString :: split sep s'
      else match split sep s' with
           | seg :: rest => String c seg :: rest
           | [] => [String c EmptyString]
           end
  end.

(** [v.split('/')]: a method of strings only. *)
Definition call_split (v : jsval) : result (list string) :=
  match v with
  | Some (JString s) => Ok (split "/"%char s)
  | _ => Throw
  end.

(** [a.pop()]: the last element, [undefined] on an empty array. *)
Definition pop (a : list string) : option string := last a.

(** [x || ''] on a string or [undefined]: the empty string is falsy too. *)
Definition or_empty (x : option string) : string :=
  match x with
  | Some s => if String.eqb s "" then "" else s
  | None => ""
  end.

(** ** The extractor *)

Record RecentProject : Type := mkRecentProject {
  uri : jsval;
  label : string;
  path : jsval;
}.

(** The callback of [fileMenu.find]. *)
Definition is_recent_menu (item : json) : result bool :=
  i ← prop (Some item) "id";
  if strict_eq_str i "submenuitem.MenubarRecentMenu" then
    l ← prop (Some item) "label";
    Ok (strict_eq_str l "Open &&Recent")
  else Ok false.

(** The callbacks of the two [filter] calls. *)
Definition is_open_recent_folder (item : json) : result bool :=
  i ← prop (Some item) "id";
  Ok (strict_eq_str i "openRecentFolder").

Definition has_object_uri (item : json) : result bool :=
  u ← prop (Some item) "uri";
  Ok (truthy u && String.eqb (typeof u) "object").

(** The callback of [map]. *)
Definition to_project (item : json) : result RecentProject :=
  u ← prop (Some item) "uri";
  filePath ← prop u "path";
  uri_path ← prop u "path";
  l ← prop (Some item) "label";
  segs ← call_split l;
  Ok {| uri := uri_path; label := or_empty (pop segs); path := filePath |}.

(** [storageData.lastKnownMenubarData?.menus?.File?.items] *)
Definition file_menu_items (storageData : json) : result jsval :=
  d ← prop (Some storageData) "lastKnownMenubarData";
  m ← opt_prop d "menus";
  f ← opt_prop m "File";
  opt_prop f "items".

(** [recentMenuItem.submenu?.items] *)
Definition submenu_items (recentMenuItem : jsval) : result jsval :=
  s ← prop recentMenuItem "submenu";
  opt_prop s "items".

(** The returned expression: [items.filter(..).filter(..).map(..)]. *)
Definition recent_folders (items : jsval) : result (list RecentProject) :=
  folders ← call_filter items is_open_recent_folder;
  with_uri ← array_filter has_object_uri folders;
  array_map to_project with_uri.

(** The body of the [try] block of [getRecentProjects], from the parsed
    document on. *)
Definition extract_body (storageData : json) : result (list RecentProject) :=
  fileMenu ← file_menu_items storageData;
  if negb (truthy fileMenu) then Ok []
  else
    recentMenuItem ← call_find fileMenu is_recent_menu;
    if negb (truthy recentMenuItem) then Ok []
    else
      items ← submenu_items recentMenuItem;
      if negb (truthy items) then Ok []
      else
        recent_folders items.

(** The parsing stage with the [catch] around it: any exception gives [[]]. *)
Definition extract (storageData : json) : list RecentProject :=
  try_catch (extract_body storageData) [].

(** ** The storage reader and [getRecentProjects] *)

(** What the command asks of its host: the home directory, the two file
    calls and [JSON.parse]. *)
Record Host : Type := mkHost {
  homedir : string;
  existsSync : string -> bool;
  readFileSync : string -> result string;
  JSON_parse : string -> result json;
}.

Definition STORAGE_FILE_PATH (h : Host) : string :=
  homedir h ++
  "/Library/Application Support/Windsurf/User/globalStorage/storage.json".

(** The [try] block of [getRecentProjects]. *)
Definition getRecentProjects_body (h : Host) : result (list RecentProject) :=
  if negb (existsSync h (STORAGE_FILE_PATH h)) then Ok []
  else
    text ← readFileSync h (STORAGE_FILE_PATH h);
    storageData ← JSON_parse h text;
    extract_body storageData.

Definition getRecentProjects (h : Host) : list RecentProject :=
  try_catch (getRecentProjects_body h) [].

(** ** The command's view *)

(** A child of the rendered [List]: the empty-state view, or one row with its
    title, subtitle, the path handed to [openProjectInWindsurf] by the first
    action and the content of the copy action. *)
Inductive ListChild : Type :=
  | EmptyView (title description : string)
  | Item (title : string) (subtitle : jsval) (open_path : jsval)
         (copy_content : jsval).

Record ListView : Type := mkListView {
  isLoading : bool;
  children : list ListChild;
}.

(** The two [useState] cells. *)
Record CommandState : Type := mkCommandState {
  recentProjects : list RecentProject;
  loading : bool;
}.

Definition initial_state : CommandState :=
  {| recentProjects := []; loading := true |}.

(** The [useEffect] callback, run once after the first render. *)
Definition run_effect (h : Host) (st : CommandState) : CommandState :=
  let projects := getRecentProjects h in
  {| recentProjects := projects; loading := false |}.

(** The JSX returned by [Command]. *)
Definition render (st : CommandState) : ListView :=
  {| isLoading := loading st;
     children :=
       if (length (recentProjects st) =? 0)%nat && negb (loading st) then
         [EmptyView "最近使用したプロジェクトがありません"
                    "Windsurfでプロジェクトを開くと、ここに表示されます"]
       else
         map (fun project =>
                Item (label project) (path project) (path project)
                     (path project))
             (recentProjects st) |}.

(** The view once the effect has run. *)
Definition Command (h : Host) : ListView :=
  render (run_effect h initial_state).

(** ** The launcher *)

Inductive ToastStyle : Type := Success | Failure.

Record ToastOptions : Type := mkToast {
  style : ToastStyle;
  toast_title : string;
  message : option string;
}.

(** The calls the launcher makes to the outside, in the order made. *)
Inductive event : Type :=
  | Exec (command : string)
  | ShowToast (options : ToastOptions)
  | CloseMainWindow.

(** How the outside answers: whether the shell command succeeds (exit status
    zero) and whether the two toolkit calls complete. *)
Record World : Type := mkWorld {
  exec_ok : string -> bool;
  toast_ok : ToastOptions -> bool;
  close_ok : bool;
}.

(** An asynchronous computation: the calls it made and how it settled
    ([Ok]: the promise resolved, [Throw]: it rejected). *)
Definition io (A : Type) : Type := list event * result A.

#[global] Instance io_ret : MRet io := fun _ a => ([], Ok a).
#[global] Instance io_bind : MBind io := fun _ _ f m =>
  match m with
  | (t, Ok a) => let '(t', r) := f a in (t ++ t', r)
  | (t, Throw) => (t, Throw)
  end.

(** [try { m } catch (error) { handler }] *)
Definition io_try {A : Type} (m handler : io A) : io A :=
  match m with
  | (t, Ok a) => (t, Ok a)
  | (t, Throw) => let '(t', r) := handler in (t ++ t', r)
  end.

Definition settle (b : bool) : result unit := if b then Ok tt else Throw.

Definition execAsync (w : World) (command : string) : io unit :=
  ([Exec command], settle (exec_ok w command)).

Definition showToast (w : World) (options : ToastOptions) : io unit :=
  ([ShowToast options], settle (toast_ok w options)).

Definition closeMainWindow (w : World) : io unit :=
  ([CloseMainWindow], settle (close_ok w)).

(** The double-quote character of the command template. *)
Definition dquote : string := String (ascii_of_nat 34) EmptyString.

(** [`open -a Windsurf "${projectPath}"`] *)
Definition open_command (projectPath : string) : string :=
  "open -a Windsurf " ++ dquote ++ projectPath ++ dquote.

Definition success_toast : ToastOptions :=
  {| style := Success;
     toast_title := "プロジェクトを開きました";
     message := None |}.

Definition failure_toast : ToastOptions :=
  {| style := Failure;
     toast_title := "エラー";
     message := Some "プロジェクトを開けませんでした" |}.

Definition openProjectInWindsurf (w : World) (projectPath : string) : io unit :=
  io_try
    (_ ← execAsync w (open_command projectPath);
     _ ← showToast w success_toast;
     closeMainWindow w)
    (showToast w failure_toast).

(** ** The shape the extractor expects, in the words of the specification *)

(** Strict accessors: a field of a JSON object, an object, an array. *)
Definition field (k : string) (j : json) : option json :=
  match j with
  | JObject fields => fields !! k
  | _ => None
  end.

Definition as_object (j : json) : option json :=
  match j with
  | JObject _ => Some j
  | _ => None
  end.

Definition as_array (j : json) : option (list json) :=
  match j with
  | JArray l => Some l
  | _ => None
  end.

Definition as_string (j : json) : option string :=
  match j with
  | JString s => Some s
  | _ => None
  end.

(** [lastKnownMenubarData], [menus] and [File] present as objects, [items]
    present as a sequence. *)
Definition file_items_of (raw : json) : option (list json) :=
  d ← field "lastKnownMenubarData" raw ≫= as_object;
  m ← field "menus" d ≫= as_object;
  f ← field "File" m ≫= as_object;
  field "items" f ≫= as_array.

(** The value found by following the four names, whatever it is. *)
Definition file_items_value (raw : json) : jsval :=
  d ← field "lastKnownMenubarData" raw;
  m ← field "menus" d;
  f ← field "File" m;
  field "items" f.

(** [submenu] present as an object with [items] present as a sequence. *)
Definition recent_items_of (item : json) : option (list json) :=
  s ← field "submenu" item ≫= as_object;
  field "items" s ≫= as_array.

(** An item whose [id] is exactly ["submenuitem.MenubarRecentMenu"] and whose
    [label] is exactly ["Open &&Recent"]. *)
Definition recent_menu_item (item : json) : bool :=
  match field "id" item ≫= as_string, field "label" item ≫= as_string with
  | Some i, Some l =>
      String.eqb i "submenuitem.MenubarRecentMenu" &&
      String.eqb l "Open &&Recent"
  | _, _ => false
  end.

(** The first such item of a sequence. *)
Definition first_recent_menu (items : list json) : option json :=
  List.find recent_menu_item items.

(** An object in the sense of the language's [typeof]: a JSON object or
    array, not [null]. *)
Definition is_object (j : json) : bool :=
  match j with
  | JObject _ | JArray _ => true
  | _ => false
  end.

(** An item whose [uri] is present and is an object. *)
Definition object_uri (item : json) : bool :=
  match field "uri" item with
  | Some u => is_object u
  | None => false
  end.

(** An entry whose [id] is exactly ["openRecentFolder"] and whose [uri] is
    present and is an object. *)
Definition recent_folder_entry (item : json) : bool :=
  match field "id" item ≫= as_string, field "uri" item with
  | Some i, Some u => String.eqb i "openRecentFolder" && is_object u
  | _, _ => false
  end.

(** [uri.path] of an entry. *)
Definition uri_path (item : json) : jsval :=
  field "uri" item ≫= field "path".

(** The last ['/']-separated segment of a string: what follows its last
    ['/'], the whole string when it has none. *)
Fixpoint has_slash (s : string) : bool :=
  match s with
  | EmptyString => false
  | String c s' => Ascii.eqb c "/"%char || has_slash s'
  end.

Fixpoint last_segment (s : string) : string :=
  match s with
  | EmptyString => EmptyString
  | String c s' =>
      if has_slash s' then last_segment s'
      else if Ascii.eqb c "/"%char then s'
      else s
  end.

Definition label_of (item : json) : string :=
  match field "label" item ≫= as_string with
  | Some l => last_segment l
  | None => ""
  end.

(** The RecentProject the specification describes for an entry. *)
Definition project_of (item : json) : RecentProject :=
  {| uri := uri_path item; label := label_of item; path := uri_path item |}.

(** A value other than [null]. *)
Definition not_null (j : json) : bool :=
  match j with
  | JNull => false
  | _ => true
  end.

(** A well-formed entry sequence: no element is [null], and the
    recent-folder entries carry a string label. *)
Definition has_string_label (item : json) : bool :=
  match field "label" item ≫= as_string with
  | Some _ => true
  | None => false
  end.

Definition well_formed_entry (item : json) : bool :=
  not_null item && implb (recent_folder_entry item) (has_string_label item).

Definition well_formed (items : list json) : bool :=
  forallb well_formed_entry items.

(** What the code has located in a document: the [File] menu's [items], the
    recent menu found in them, and that menu's [submenu.items]. *)
Definition selected_menu (raw : json) : option json :=
  fm ← file_items_of raw;
  match array_find is_recent_menu fm with
  | Ok found => found
  | Throw => None
  end.

Definition recent_entries (raw : json) : option (list json) :=
  selected_menu raw ≫= recent_items_of.

(** A value that is a non-empty string. *)
Definition nonempty_string (v : jsval) : bool :=
  match v with
  | Some (JString s) => negb (String.eqb s "")
  | _ => false
  end.

(** ** Sample documents *)

Definition obj (members : list (string * json)) : json :=
  JObject (list_to_map members).

Definition file_uri (p : string) : json :=
  obj [("$mid", JNumber 1); ("path", JString p); ("scheme", JString "file")].

Definition folder (l p : string) : json :=
  obj [("id", JString "openRecentFolder"); ("uri", file_uri p);
       ("label", JString l)].

Definition recent_menu (entries : json) : json :=
  obj [("id", JString "submenuitem.MenubarRecentMenu");
       ("label", JString "Open &&Recent");
       ("submenu", obj [("items", entries)])].

Definition storage (file_items : json) : json :=
  obj [("lastKnownMenubarData",
        obj [("menus", obj [("File", obj [("items", file_items)])])])].

Definition separator : json := obj [("id", JString "vscode.menubar.separator")].

Definition alice_doc : json :=
  storage (JArray [
    obj [("id", JString "workbench.action.files.newUntitledFile");
         ("label", JString "&&New Text File")];
    recent_menu (JArray [
      folder "alice/dev/proj" "/Users/alice/dev/proj";
      separator;
      obj [("id", JString "openRecentFile");
           ("uri", file_uri "/Users/alice/notes.txt");
           ("label", JString "~/notes.txt")];
      obj [("id", JString "openRecentFolder");
           ("uri", JString "file:///Users/alice/old");
           ("label", JString "~/old")];
      folder "~/work/site" "/Users/alice/work/site"])]).

(** A one-entry document: the round trip of the specification. *)
Definition round_trip_doc : json :=
  storage (JArray [
    recent_menu (JArray [folder "alice/dev/proj" "/Users/alice/dev/proj"])]).

(** A document without the [File] menu. *)
Definition no_file_menu_doc : json :=
  obj [("lastKnownMenubarData", obj [("menus", obj [])])].

(** A recent-folder entry whose [uri.path] is the empty string. *)
Definition empty_path_doc : json :=
  storage (JArray [recent_menu (JArray [folder "scratch" ""])]).

(** A valid entry followed by a recent-folder entry without a [label]. *)
Definition unlabelled_folder : json :=
  obj [("id", JString "openRecentFolder"); ("uri", file_uri "/Users/alice/x")].

Definition unlabelled_doc : json :=
  storage (JArray [
    recent_menu (JArray [
      folder "alice/dev/proj" "/Users/alice/dev/proj"; unlabelled_folder])]).

(** A recent-folder entry whose [label] is the empty string, between two
    others. *)
Definition empty_label_doc : json :=
  storage (JArray [
    recent_menu (JArray [
      folder "~/a" "/Users/alice/a";
      folder "" "/Users/alice/b";
      folder "~/c" "/Users/alice/c"])]).

(** Hosts: one without the storage file, one whose file parses to a given
    document. *)
Definition host_without_file : Host :=
  {| homedir := "/Users/alice";
     existsSync := fun _ => false;
     readFileSync := fun _ => Throw;
     JSON_parse := fun _ => Throw |}.

Definition host_with (doc : json) : Host :=
  {| homedir := "/Users/alice";
     existsSync := fun _ => true;
     readFileSync := fun _ => Ok "{}";
     JSON_parse := fun _ => Ok doc |}.

(** Worlds: one where everything succeeds, one where the shell command
    fails. *)
Definition world_ok : World :=
  {| exec_ok := fun _ => true; toast_ok := fun _ => true; close_ok := true |}.

Definition world_exec_fails : World :=
  {| exec_ok := fun _ => false; toast_ok := fun _ => true; close_ok := true |}.

(** The view with the empty-state indicator alone. *)
Definition empty_state_view : ListView :=
  {| isLoading := false;
     children :=
       [EmptyView "最近使用したプロジェクトがありません"
                  "Windsurfでプロジェクトを開くと、ここに表示されます"] |}.

(** A valid entry followed by a [null] element. *)
Definition null_entry_doc : json :=
  storage (JArray [
    recent_menu (JArray [
      folder "alice/dev/proj" "/Users/alice/dev/proj"; JNull])]).

(** A recent-folder entry whose [uri] is an array. *)
Definition array_uri_folder : json :=
  obj [("id", JString "openRecentFolder"); ("uri", JArray []);
       ("label", JString "~/odd")].

(** A host whose storage file is there but does not parse. *)
Definition host_unparsable : Host :=
  {| homedir := "/Users/alice";
     existsSync := fun _ => true;
     readFileSync := fun _ => Ok "{";
     JSON_parse := fun _ => Throw |}.

(** A host that holds the parsed document at the storage path only. *)
Definition host_only_storage (doc : json) : Host :=
  {| homedir := "/Users/alice";
     existsSync := fun p =>
       String.eqb p
         "/Users/alice/Library/Application Support/Windsurf/User/globalStorage/storage.json";
     readFileSync := fun p =>
       if String.eqb p
            "/Users/alice/Library/Application Support/Windsurf/User/globalStorage/storage.json"
       then Ok "{}" else Throw;
     JSON_parse := fun _ => Ok doc |}.

(** The row the command renders for an entry. *)
Definition row_of (item : json) : ListChild :=
  Item (label_of item) (uri_path item) (uri_path item) (uri_path item).

(** Two recent menus in the [File] items, after a separator and a menu whose
    label is the unescaped spelling, with a [null] between them. *)
Definition menu_a : json :=
  recent_menu (JArray [folder "~/a" "/Users/alice/a"]).

Definition menu_b : json :=
  recent_menu (JArray [folder "~/b" "/Users/alice/b"]).

Definition unescaped_menu : json :=
  obj [("id", JString "submenuitem.MenubarRecentMenu");
       ("label", JString "Open Recent");
       ("submenu", obj [("items", JArray [folder "~/z" "/Users/alice/z"])])].

Definition two_menus_doc : json :=
  storage (JArray [separator; unescaped_menu; menu_a; JNull; menu_b]).

(** A [null] element before the recent menu. *)
Definition null_first_doc : json :=
  storage (JArray [JNull; menu_a]).

(** Worlds where a notification call does not complete: after a shell
    command that succeeded, and after one that failed. *)
Definition world_success_toast_fails : World :=
  {| exec_ok := fun _ => true; toast_ok := fun _ => false; close_ok := true |}.

Definition world_all_fail : World :=
  {| exec_ok := fun _ => false; toast_ok := fun _ => false;
     close_ok := true |}.

(** ** Property reads against the strict accessors *)

(** Step through a bind whose first computation returned. *)
Ltac bind_ok := repeat (change (Ok ?v ≫= ?k) with (k v); cbv beta).

Lemma not_null_true (j : json) : not_null j = true -> j <> JNull.
Proof. intros H ->. discriminate. Qed.

Lemma json_null_dec (j : json) : {j = JNull} + {j <> JNull}.
Proof. destruct j; (left; reflexivity) || (right; discriminate). Qed.

Lemma prop_field (j : json) (k : string) :
  j <> JNull -> prop (Some j) k = Ok (field k j).
Proof. destruct j; intros Hj; try reflexivity. congruence. Qed.

Lemma opt_prop_field (v : jsval) (k : string) :
  opt_prop v k = Ok (v ≫= field k).
Proof. destruct v as [[]|]; reflexivity. Qed.

Lemma prop_object_field (j : json) (k : string) :
  is_object j = true -> prop (Some j) k = Ok (field k j).
Proof. destruct j; intros Hj; try discriminate; reflexivity. Qed.

(** The optional chain never throws past its first read, and yields the
    [items] sequence exactly when the strict navigation does. *)
Lemma file_menu_items_chain (raw : json) :
  raw <> JNull ->
  file_menu_items raw =
    Ok (file_items_value raw).
Proof.
  intros Hraw. unfold file_menu_items.
  rewrite (prop_field _ _ Hraw). simpl.
  rewrite !opt_prop_field. unfold file_items_value.
  destruct (field "lastKnownMenubarData" raw) as [d|]; [|reflexivity]. simpl.
  rewrite opt_prop_field.
  destruct (field "menus" d) as [m|]; [|reflexivity]. simpl.
  rewrite opt_prop_field. reflexivity.
Qed.

Lemma field_of_object (k : string) (j v : json) :
  field k j = Some v -> as_object j = Some j.
Proof. destruct j; simpl; intros H; try discriminate; reflexivity. Qed.

Lemma file_items_of_chain (raw : json) (fm : list json) :
  file_items_of raw = Some fm <->
  file_items_value raw = Some (JArray fm).
Proof.
  unfold file_items_of, file_items_value. split.
  - intros H.
    destruct (field "lastKnownMenubarData" raw) as [d|]; [|discriminate].
    destruct d; try discriminate. simpl in *.
    destruct (fields !! "menus") as [m|]; [|discriminate].
    destruct m; try discriminate. simpl in *.
    destruct (fields0 !! "File") as [f|]; [|discriminate].
    destruct f; try discriminate. simpl in *.
    destruct (fields1 !! "items") as [i|]; [|discriminate].
    destruct i; try discriminate. simpl in *. congruence.
  - intros H.
    destruct (field "lastKnownMenubarData" raw) as [d|]; [|discriminate].
    simpl in *.
    destruct (field "menus" d) as [m|] eqn:Hm; [|discriminate].
    rewrite (field_of_object _ _ _ Hm). simpl in *. rewrite Hm. simpl.
    destruct (field "File" m) as [f|] eqn:Hf; [|discriminate].
    rewrite (field_of_object _ _ _ Hf). simpl in *. rewrite Hf. simpl.
    destruct (field "items" f) as [i|] eqn:Hi; [|discriminate].
    rewrite (field_of_object _ _ _ Hi). simpl in *. rewrite Hi. simpl.
    inversion H; subst. reflexivity.
Qed.

Lemma file_menu_items_located (raw : json) (fm : list json) :
  file_items_of raw = Some fm ->
  file_menu_items raw = Ok (Some (JArray fm)).
Proof.
  intros H.
  assert (Hraw : raw <> JNull) by (intros ->; discriminate).
  rewrite (file_menu_items_chain _ Hraw).
  apply file_items_of_chain in H. rewrite H. reflexivity.
Qed.

(** A value that is not an array stops the extraction with an empty list:
    a falsy one at the guard, a truthy one when a method of arrays is called
    on it. *)
Lemma not_array_find {A : Type} (v : jsval) f (k : jsval -> result (list A)) :
  (forall l, v <> Some (JArray l)) ->
  try_catch (if negb (truthy v) then Ok []
             else found ← call_find v f; k found) [] = [].
Proof.
  intros Hv. destruct (truthy v); simpl; [|reflexivity].
  destruct v as [[]|]; simpl; try reflexivity.
  exfalso. eapply Hv. reflexivity.
Qed.

Lemma not_array_filter (v : jsval) :
  (forall l, v <> Some (JArray l)) ->
  try_catch (if negb (truthy v) then Ok [] else recent_folders v) [] = [].
Proof.
  intros Hv. destruct (truthy v); simpl; [|reflexivity].
  destruct v as [[]|]; simpl; try reflexivity.
  exfalso. eapply Hv. reflexivity.
Qed.

Lemma extract_no_file_items (raw : json) :
  file_items_of raw = None -> extract raw = [].
Proof.
  intros Hnone. unfold extract, extract_body.
  destruct (json_null_dec raw) as [->|Hraw]; [reflexivity|].
  rewrite (file_menu_items_chain _ Hraw). simpl.
  apply not_array_find.
  intros l Hl. apply file_items_of_chain in Hl. congruence.
Qed.

(** ** The [find] callback and the selected menu *)

Lemma is_recent_menu_pure (item : json) :
  item <> JNull -> is_recent_menu item = Ok (recent_menu_item item).
Proof.
  intros Hitem. unfold is_recent_menu, recent_menu_item.
  rewrite !(prop_field _ _ Hitem). simpl.
  destruct (field "id" item) as [[]|]; simpl; try reflexivity;
    try (destruct (field "label" item ≫= as_string); reflexivity).
  destruct (String.eqb s "submenuitem.MenubarRecentMenu"); simpl.
  - destruct (field "label" item) as [[]|]; reflexivity.
  - destruct (field "label" item ≫= as_string); reflexivity.
Qed.

Lemma recent_menu_item_not_null (item : json) :
  recent_menu_item item = true -> item <> JNull.
Proof. intros H ->. discriminate. Qed.

Lemma recent_menu_item_record (item : json) :
  recent_menu_item item = true -> exists fields, item = JObject fields.
Proof. destruct item; try discriminate. eauto. Qed.

Lemma recent_menu_item_exact (item : json) :
  recent_menu_item item = true <->
  field "id" item = Some (JString "submenuitem.MenubarRecentMenu") /\
  field "label" item = Some (JString "Open &&Recent").
Proof.
  unfold recent_menu_item. split.
  - destruct (field "id" item) as [[]|]; simpl; try discriminate.
    destruct (field "label" item) as [[]|]; simpl; try discriminate.
    intros H. apply andb_prop in H as [Hi Hl].
    apply String.eqb_eq in Hi, Hl. subst. split; reflexivity.
  - intros [-> ->]. reflexivity.
Qed.

(** Whatever [find] returns is the first matching item, if there is one. *)
Lemma array_find_first (l : list json) (found : jsval) :
  array_find is_recent_menu l = Ok found -> found = first_recent_menu l.
Proof.
  induction l as [|x l IH]; simpl; intros H.
  - congruence.
  - destruct (json_null_dec x) as [->|Hx]; [discriminate|].
    rewrite (is_recent_menu_pure _ Hx) in H. simpl in H.
    unfold first_recent_menu. simpl.
    destruct (recent_menu_item x); [congruence|]. apply IH, H.
Qed.

(** It does return it when no element before it is [null]. *)
Lemma array_find_selects (pre post : list json) (m : json) :
  forallb (fun x => negb (recent_menu_item x)) pre = true ->
  forallb not_null pre = true ->
  recent_menu_item m = true ->
  array_find is_recent_menu (pre ++ m :: post) = Ok (Some m).
Proof.
  intros Hno Hnn Hm. induction pre as [|x pre IH]; simpl in *.
  - rewrite (is_recent_menu_pure _ (recent_menu_item_not_null _ Hm)).
    simpl. rewrite Hm. reflexivity.
  - apply andb_prop in Hno as [Hx Hno]. apply andb_prop in Hnn as [Hxn Hnn].
    apply not_null_true in Hxn.
    rewrite (is_recent_menu_pure _ Hxn). simpl.
    apply negb_true_iff in Hx. rewrite Hx. apply IH; assumption.
Qed.

Lemma submenu_items_chain (m : json) :
  m <> JNull ->
  submenu_items (Some m) = Ok (s ← field "submenu" m; field "items" s).
Proof.
  intros Hm. unfold submenu_items. rewrite (prop_field _ _ Hm). simpl.
  apply opt_prop_field.
Qed.

Lemma recent_items_of_chain (m : json) (items : list json) :
  recent_items_of m = Some items <->
  (s ← field "submenu" m; field "items" s) = Some (JArray items).
Proof.
  unfold recent_items_of. split; intros H.
  - destruct (field "submenu" m) as [s|]; [|discriminate].
    destruct s; try discriminate. simpl in *.
    destruct (fields !! "items") as [i|]; [|discriminate].
    destruct i; try discriminate. simpl in *. congruence.
  - destruct (field "submenu" m) as [s|]; [|discriminate]. simpl in *.
    rewrite (field_of_object _ _ _ H). simpl. rewrite H. reflexivity.
Qed.

(** The extraction once the [File] menu's items are known. *)
Lemma extract_body_file_items (raw : json) (fm : list json) :
  file_items_of raw = Some fm ->
  extract_body raw =
    (recentMenuItem ← array_find is_recent_menu fm;
     if negb (truthy recentMenuItem) then Ok []
     else
       items ← submenu_items recentMenuItem;
       if negb (truthy items) then Ok [] else recent_folders items).
Proof.
  intros H. unfold extract_body.
  rewrite (file_menu_items_located _ _ H). reflexivity.
Qed.

Lemma extract_no_match (raw : json) (fm : list json) :
  file_items_of raw = Some fm ->
  first_recent_menu fm = None ->
  extract raw = [].
Proof.
  intros Hfm Hnone. unfold extract.
  rewrite (extract_body_file_items _ _ Hfm).
  destruct (array_find is_recent_menu fm) as [found|] eqn:Hfind;
    [|reflexivity].
  apply array_find_first in Hfind. rewrite Hnone in Hfind. subst found.
  reflexivity.
Qed.

Lemma extract_selected (raw : json) (fm : list json) (m : json) :
  file_items_of raw = Some fm ->
  array_find is_recent_menu fm = Ok (Some m) ->
  extract raw =
    match recent_items_of m with
    | Some items => try_catch (recent_folders (Some (JArray items))) []
    | None => []
    end.
Proof.
  intros Hfm Hfind. unfold extract.
  rewrite (extract_body_file_items _ _ Hfm). rewrite Hfind.
  change (Ok (Some m) ≫= ?k) with (k (Some m)). cbv beta.
  assert (Hrec : recent_menu_item m = true).
  { apply array_find_first in Hfind. symmetry in Hfind.
    apply find_some in Hfind as [_ Hm]. exact Hm. }
  assert (Htruthy : truthy (Some m) = true)
    by (destruct (recent_menu_item_record _ Hrec) as [fields ->]; reflexivity).
  rewrite Htruthy. cbn [negb].
  rewrite (submenu_items_chain _ (recent_menu_item_not_null _ Hrec)).
  change (Ok ?v ≫= ?k) with (k v). cbv beta.
  destruct (recent_items_of m) as [items|] eqn:Hitems.
  - apply recent_items_of_chain in Hitems. rewrite Hitems. reflexivity.
  - apply not_array_filter. intros l Hl.
    apply recent_items_of_chain in Hl. congruence.
Qed.

Lemma extract_body_selected (raw : json) (fm items : list json) (m : json) :
  file_items_of raw = Some fm ->
  array_find is_recent_menu fm = Ok (Some m) ->
  recent_items_of m = Some items ->
  extract_body raw = recent_folders (Some (JArray items)).
Proof.
  intros Hfm Hfind Hitems.
  rewrite (extract_body_file_items _ _ Hfm). rewrite Hfind. bind_ok.
  assert (Hrec : recent_menu_item m = true).
  { apply array_find_first in Hfind. symmetry in Hfind.
    apply find_some in Hfind as [_ Hm]. exact Hm. }
  assert (Htruthy : truthy (Some m) = true)
    by (destruct (recent_menu_item_record _ Hrec) as [fields ->]; reflexivity).
  rewrite Htruthy. cbn [negb].
  rewrite (submenu_items_chain _ (recent_menu_item_not_null _ Hrec)). bind_ok.
  apply recent_items_of_chain in Hitems. rewrite Hitems. reflexivity.
Qed.

Lemma extract_body_recent_entries (raw : json) (items : list json) :
  recent_entries raw = Some items ->
  extract_body raw = recent_folders (Some (JArray items)).
Proof.
  unfold recent_entries, selected_menu. intros H.
  destruct (file_items_of raw) as [fm|] eqn:Hfm; [|discriminate].
  simpl in H.
  destruct (array_find is_recent_menu fm) as [[m|]|] eqn:Hfind;
    try discriminate.
  simpl in H. apply (extract_body_selected _ _ _ _ Hfm Hfind H).
Qed.

Lemma extract_no_submenu (raw : json) (fm : list json) (m : json) :
  file_items_of raw = Some fm ->
  first_recent_menu fm = Some m ->
  recent_items_of m = None ->
  extract raw = [].
Proof.
  intros Hfm Hfirst Hnone.
  destruct (array_find is_recent_menu fm) as [found|] eqn:Hfind.
  - pose proof (array_find_first _ _ Hfind) as Heq.
    rewrite Hfirst in Heq. subst found.
    rewrite (extract_selected _ _ _ Hfm Hfind), Hnone. reflexivity.
  - unfold extract. rewrite (extract_body_file_items _ _ Hfm), Hfind.
    reflexivity.
Qed.

Lemma extract_recent_entries (raw : json) :
  extract raw =
    match recent_entries raw with
    | Some items => try_catch (recent_folders (Some (JArray items))) []
    | None => []
    end.
Proof.
  unfold recent_entries, selected_menu.
  destruct (file_items_of raw) as [fm|] eqn:Hfm; simpl.
  - destruct (array_find is_recent_menu fm) as [[m|]|] eqn:Hfind; simpl.
    + apply (extract_selected _ _ _ Hfm Hfind).
    + apply array_find_first in Hfind.
      apply (extract_no_match _ _ Hfm). symmetry. exact Hfind.
    + unfold extract. rewrite (extract_body_file_items _ _ Hfm), Hfind.
      reflexivity.
  - apply extract_no_file_items, Hfm.
Qed.

(** ** The array methods on callbacks that do not throw *)

Lemma array_filter_pure (f : json -> result bool) (g : json -> bool)
      (l : list json) :
  (forall x, In x l -> f x = Ok (g x)) ->
  array_filter f l = Ok (List.filter g l).
Proof.
  induction l as [|x l IH]; simpl; intros Hf; [reflexivity|].
  rewrite (Hf x) by (left; reflexivity). simpl.
  rewrite IH by (intros y Hy; apply Hf; right; exact Hy). simpl.
  destruct (g x); reflexivity.
Qed.

Lemma array_filter_throw (f : json -> result bool) (l : list json) (x : json) :
  In x l -> f x = Throw -> array_filter f l = Throw.
Proof.
  induction l as [|y l IH]; simpl; intros Hin Hx; [contradiction|].
  destruct Hin as [->|Hin].
  - rewrite Hx. reflexivity.
  - rewrite (IH Hin Hx). destruct (f y); reflexivity.
Qed.

Lemma array_map_pure {B : Type} (f : json -> result B) (g : json -> B)
      (l : list json) :
  (forall x, In x l -> f x = Ok (g x)) ->
  array_map f l = Ok (List.map g l).
Proof.
  induction l as [|x l IH]; simpl; intros Hf; [reflexivity|].
  rewrite (Hf x) by (left; reflexivity). simpl.
  rewrite IH by (intros y Hy; apply Hf; right; exact Hy). reflexivity.
Qed.

Lemma array_map_throw {B : Type} (f : json -> result B) (l : list json)
      (x : json) :
  In x l -> f x = Throw -> array_map f l = Throw.
Proof.
  induction l as [|y l IH]; simpl; intros Hin Hx; [contradiction|].
  destruct Hin as [->|Hin].
  - rewrite Hx. reflexivity.
  - rewrite (IH Hin Hx). destruct (f y); reflexivity.
Qed.

(** Every element of a mapped array is the callback's value at an element of
    the source, at the same position. *)
Lemma array_map_ok {B : Type} (f : json -> result B) (l : list json)
      (r : list B) :
  array_map f l = Ok r -> Forall2 (fun x y => f x = Ok y) l r.
Proof.
  revert r. induction l as [|x l IH]; simpl; intros r H.
  - inversion H. constructor.
  - destruct (f x) as [y|] eqn:Hx; [|discriminate]. simpl in H.
    destruct (array_map f l) as [r'|]; [|discriminate]. simpl in H.
    inversion H; subst. constructor; [exact Hx | apply IH; reflexivity].
Qed.

Lemma array_map_source {B : Type} (f : json -> result B) (l : list json)
      (r : list B) (y : B) :
  array_map f l = Ok r -> In y r -> exists x, In x l /\ f x = Ok y.
Proof.
  intros Hmap. apply array_map_ok in Hmap.
  induction Hmap as [|x y' l r Hxy _ IH]; intros Hin; [destruct Hin|].
  destruct Hin as [->|Hin].
  - exists x. split; [left; reflexivity | exact Hxy].
  - destruct (IH Hin) as (x' & Hx' & Hfx').
    exists x'. split; [right|]; assumption.
Qed.

(** ** The [filter] callbacks *)

Lemma is_open_recent_folder_pure (item : json) :
  item <> JNull ->
  is_open_recent_folder item =
    Ok (strict_eq_str (field "id" item) "openRecentFolder").
Proof.
  intros Hitem. unfold is_open_recent_folder.
  rewrite (prop_field _ _ Hitem). reflexivity.
Qed.

Lemma has_object_uri_pure (item : json) :
  item <> JNull -> has_object_uri item = Ok (object_uri item).
Proof.
  intros Hitem. unfold has_object_uri, object_uri.
  rewrite (prop_field _ _ Hitem). simpl.
  destruct (field "uri" item) as [[]|]; try reflexivity.
  simpl. destruct b; reflexivity.
  simpl. destruct (Qeq_bool q 0); reflexivity.
  simpl. destruct (String.eqb s ""); reflexivity.
Qed.

Lemma recent_folder_entry_split (item : json) :
  recent_folder_entry item =
    strict_eq_str (field "id" item) "openRecentFolder" && object_uri item.
Proof.
  unfold recent_folder_entry, object_uri.
  destruct (field "id" item) as [[]|]; simpl; try reflexivity;
    try (destruct (field "uri" item); reflexivity).
  destruct (field "uri" item); [reflexivity|].
  rewrite andb_false_r. reflexivity.
Qed.

Lemma filter_filter_and {A : Type} (g1 g2 : A -> bool) (l : list A) :
  List.filter g2 (List.filter g1 l) = List.filter (fun x => g1 x && g2 x) l.
Proof.
  induction l as [|x l IH]; simpl; [reflexivity|].
  destruct (g1 x); simpl; [destruct (g2 x)|]; rewrite IH; reflexivity.
Qed.

Lemma forallb_In {A : Type} (g : A -> bool) (l : list A) (x : A) :
  forallb g l = true -> In x l -> g x = true.
Proof. intros H Hin. rewrite forallb_forall in H. apply H, Hin. Qed.

(** With no [null] among the entries, the two [filter] calls keep exactly
    the recent-folder entries, in order. *)
Lemma filters_keep_folder_entries (items : list json) :
  forallb not_null items = true ->
  (folders ← array_filter is_open_recent_folder items;
   array_filter has_object_uri folders) =
  Ok (List.filter recent_folder_entry items).
Proof.
  intros Hnn.
  rewrite (array_filter_pure _
             (fun x => strict_eq_str (field "id" x) "openRecentFolder")).
  2:{ intros x Hx. apply is_open_recent_folder_pure, not_null_true.
      apply (forallb_In _ _ _ Hnn Hx). }
  simpl. rewrite (array_filter_pure _ object_uri).
  2:{ intros x Hx. apply has_object_uri_pure, not_null_true.
      apply filter_In in Hx as [Hx _]. apply (forallb_In _ _ _ Hnn Hx). }
  f_equal. rewrite filter_filter_and. apply filter_ext.
  intros x. symmetry. apply recent_folder_entry_split.
Qed.

(** A [null] entry makes the first [filter] throw. *)
Lemma filters_null_throw (items : list json) :
  forallb not_null items = false ->
  array_filter is_open_recent_folder items = Throw.
Proof.
  intros H.
  assert (Hex : exists x, In x items /\ not_null x = false).
  { induction items as [|x items IH]; simpl in H; [discriminate|].
    destruct (not_null x) eqn:Hx; simpl in H.
    - destruct (IH H) as (y & Hy & Hyn). exists y. split; [right|]; assumption.
    - exists x. split; [left; reflexivity | exact Hx]. }
  destruct Hex as (x & Hin & Hx).
  apply (array_filter_throw _ _ x Hin).
  destruct x; try discriminate. reflexivity.
Qed.

Lemma recent_folders_no_null (items : list json) :
  forallb not_null items = true ->
  recent_folders (Some (JArray items)) =
    array_map to_project (List.filter recent_folder_entry items).
Proof.
  intros Hnn. unfold recent_folders. simpl.
  pose proof (filters_keep_folder_entries _ Hnn) as H.
  destruct (array_filter is_open_recent_folder items) as [folders|];
    simpl in *; [|discriminate].
  rewrite H. reflexivity.
Qed.

Lemma recent_folders_null (items : list json) :
  forallb not_null items = false ->
  recent_folders (Some (JArray items)) = Throw.
Proof.
  intros H. unfold recent_folders. simpl.
  rewrite (filters_null_throw _ H). reflexivity.
Qed.

(** ** Splitting a label *)

Lemma split_no_slash (s : string) :
  has_slash s = false -> split "/" s = [s].
Proof.
  induction s as [|c s IH]; simpl; intros H; [reflexivity|].
  apply orb_false_iff in H as [Hc Hs].
  rewrite Hc, (IH Hs). reflexivity.
Qed.

Lemma split_slash (s : string) :
  has_slash s = true ->
  exists seg next rest, split "/" s = seg :: next :: rest.
Proof.
  induction s as [|c s IH]; simpl; intros H; [discriminate|].
  destruct (Ascii.eqb c "/") eqn:Hc; simpl in H.
  - destruct (has_slash s) eqn:Hs.
    + destruct (IH eq_refl) as (seg & next & rest & ->). eauto.
    + rewrite (split_no_slash _ Hs). eauto.
  - destruct (IH H) as (seg & next & rest & ->). eauto.
Qed.

Lemma last_segment_no_slash (s : string) :
  has_slash s = false -> last_segment s = s.
Proof.
  destruct s as [|c s]; simpl; intros H; [reflexivity|].
  apply orb_false_iff in H as [Hc Hs]. rewrite Hs, Hc. reflexivity.
Qed.

(** [split('/').pop()] is the text after the last ['/']. *)
Lemma pop_split (s : string) : pop (split "/" s) = Some (last_segment s).
Proof.
  unfold pop. induction s as [|c s IH]; [reflexivity|].
  simpl. destruct (has_slash s) eqn:Hs.
  - destruct (split_slash _ Hs) as (seg & next & rest & Hsplit).
    rewrite Hsplit in *. rewrite <- IH.
    destruct (Ascii.eqb c "/"); reflexivity.
  - rewrite (split_no_slash _ Hs).
    destruct (Ascii.eqb c "/"); reflexivity.
Qed.

Lemma or_empty_Some (s : string) : or_empty (Some s) = s.
Proof.
  unfold or_empty. destruct (String.eqb s "") eqn:H; [|reflexivity].
  apply String.eqb_eq in H. congruence.
Qed.

Lemma label_segment (s : string) :
  or_empty (pop (split "/" s)) = last_segment s.
Proof. rewrite pop_split. apply or_empty_Some. Qed.

(** The last segment holds no ['/'], and the label is that segment alone or
    some prefix, a ['/'], and that segment. *)
Lemma last_segment_has_no_slash (s : string) :
  has_slash (last_segment s) = false.
Proof.
  induction s as [|c s IH]; [reflexivity|].
  simpl. destruct (has_slash s) eqn:Hs; [exact IH|].
  destruct (Ascii.eqb c "/") eqn:Hc; [exact Hs|].
  simpl. rewrite Hc, Hs. reflexivity.
Qed.

Lemma last_segment_suffix (s : string) :
  has_slash s = true ->
  exists before : string, s = (before ++ "/" ++ last_segment s)%string.
Proof.
  induction s as [|c s IH]; simpl; intros H; [discriminate|].
  destruct (has_slash s) eqn:Hs.
  - destruct (IH eq_refl) as [before Hb].
    exists (String c before).
    change (String c s =
            String c (before ++ "/" ++ last_segment s)%string).
    f_equal. exact Hb.
  - rewrite orb_false_r in H. rewrite H.
    apply Ascii.eqb_eq in H. subst c. exists EmptyString. reflexivity.
Qed.

(** ** The [map] callback *)

Lemma recent_folder_entry_uri (item : json) :
  recent_folder_entry item = true ->
  exists u, field "uri" item = Some u /\ is_object u = true.
Proof.
  rewrite recent_folder_entry_split. intros H.
  apply andb_prop in H as [_ H]. unfold object_uri in H.
  destruct (field "uri" item) as [u|]; [eauto | discriminate].
Qed.

Lemma recent_folder_entry_not_null (item : json) :
  recent_folder_entry item = true -> item <> JNull.
Proof. intros H ->. discriminate. Qed.

(** For an entry with a string label the callback returns the project the
    specification describes. *)
Lemma to_project_string_label (item : json) :
  recent_folder_entry item = true ->
  has_string_label item = true ->
  to_project item = Ok (project_of item).
Proof.
  intros Hentry Hlabel.
  destruct (recent_folder_entry_uri _ Hentry) as (u & Hu & Hobj).
  unfold to_project, project_of, uri_path, label_of.
  rewrite !(prop_field _ _ (recent_folder_entry_not_null _ Hentry)).
  rewrite Hu. bind_ok. rewrite (prop_object_field _ _ Hobj). bind_ok.
  unfold has_string_label in Hlabel.
  destruct (field "label" item) as [[]|]; try discriminate.
  simpl. rewrite label_segment. reflexivity.
Qed.

(** For an entry whose label is not a string it throws. *)
Lemma to_project_other_label (item : json) :
  recent_folder_entry item = true ->
  has_string_label item = false ->
  to_project item = Throw.
Proof.
  intros Hentry Hlabel.
  destruct (recent_folder_entry_uri _ Hentry) as (u & Hu & Hobj).
  unfold to_project.
  rewrite !(prop_field _ _ (recent_folder_entry_not_null _ Hentry)).
  rewrite Hu. bind_ok. rewrite (prop_object_field _ _ Hobj). bind_ok.
  unfold has_string_label in Hlabel.
  destruct (field "label" item) as [[]|]; try discriminate; reflexivity.
Qed.

Lemma to_project_ok (item : json) (p : RecentProject) :
  recent_folder_entry item = true ->
  to_project item = Ok p ->
  p = project_of item.
Proof.
  intros Hentry Hp. destruct (has_string_label item) eqn:Hlabel.
  - rewrite (to_project_string_label _ Hentry Hlabel) in Hp. congruence.
  - rewrite (to_project_other_label _ Hentry Hlabel) in Hp. discriminate.
Qed.

(** The extraction over a well-formed entry sequence. *)
Lemma recent_folders_well_formed (items : list json) :
  well_formed items = true ->
  recent_folders (Some (JArray items)) =
    Ok (List.map project_of (List.filter recent_folder_entry items)).
Proof.
  intros Hwf.
  assert (Hnn : forallb not_null items = true).
  { apply forallb_forall. intros x Hx.
    pose proof (forallb_In _ _ _ Hwf Hx) as H.
    apply andb_prop in H as [H _]. exact H. }
  rewrite (recent_folders_no_null _ Hnn).
  apply array_map_pure. intros x Hx.
  apply filter_In in Hx as [Hx Hentry].
  apply to_project_string_label; [exact Hentry|].
  pose proof (forallb_In _ _ _ Hwf Hx) as H.
  apply andb_prop in H as [_ H]. rewrite Hentry in H. exact H.
Qed.

(** * The claims *)

(** C1.  A document in which [lastKnownMenubarData], [menus], [File] or
    [items] is absent or not of the expected shape (the three menus objects,
    [items] a sequence), or in which the recent menu's [submenu] or its
    [items] is absent or not of the expected shape, extracts to the empty
    list: [extract] returns, it does not throw. *)
Theorem extract_missing_navigation (raw : json) :
  (file_items_of raw = None \/
   exists fm m, file_items_of raw = Some fm /\
                first_recent_menu fm = Some m /\
                recent_items_of m = None) ->
  extract raw = [].
Proof.
  intros [Hnone | (fm & m & Hfm & Hfirst & Hsub)].
  - apply extract_no_file_items, Hnone.
  - apply (extract_no_submenu _ _ _ Hfm Hfirst Hsub).
Qed.

Lemma extract_missing_navigation_witness :
  file_items_of no_file_menu_doc = None /\ extract no_file_menu_doc = [].
Proof.
  split; [reflexivity|].
  apply (extract_missing_navigation no_file_menu_doc).
  left. reflexivity.
Defined.

Lemma array_find_null_throws (pre post : list json) :
  forallb (fun x => negb (recent_menu_item x)) pre = true ->
  array_find is_recent_menu (pre ++ JNull :: post) = Throw.
Proof.
  intros Hno. induction pre as [|x pre IH]; simpl in *; [reflexivity|].
  apply andb_prop in Hno as [Hx Hno]. apply negb_true_iff in Hx.
  destruct (json_null_dec x) as [->|Hxn]; [reflexivity|].
  rewrite (is_recent_menu_pure _ Hxn). simpl. rewrite Hx. apply IH, Hno.
Qed.

(** C4 fails as stated: with a [null] element before it, the first item of
    the [File] items carrying the two literals is not selected; the
    extraction is empty although that item's [submenu.items] holds a recent
    folder. *)
Lemma null_before_match_selects_nothing :
  ~ (forall m,
       first_recent_menu [JNull; menu_a] = Some m ->
       extract null_first_doc =
         match recent_items_of m with
         | Some items => try_catch (recent_folders (Some (JArray items))) []
         | None => []
         end).
Proof.
  intros H. specialize (H menu_a eq_refl). discriminate H.
Qed.

(** C4, amended.  Over the [File] menu's items, the callback of [find]
    accepts an item exactly when its [id] is
    ["submenuitem.MenubarRecentMenu"] and its [label] is ["Open &&Recent"];
    [find] returns the first such item provided no element before it is
    [null], and the extraction continues from that item's [submenu.items];
    a [null] element met before any such item makes the extraction empty;
    whatever [find] returns is that first item; with no such item, or with
    one that has no [submenu.items] sequence, the extraction is empty. *)
Theorem recent_menu_selection (raw : json) (fm : list json) :
  file_items_of raw = Some fm ->
  (forall item,
     is_recent_menu item = Ok true <->
     field "id" item = Some (JString "submenuitem.MenubarRecentMenu") /\
     field "label" item = Some (JString "Open &&Recent")) /\
  (forall pre m post,
     fm = pre ++ m :: post ->
     recent_menu_item m = true ->
     forallb (fun x => negb (recent_menu_item x)) pre = true ->
     forallb not_null pre = true ->
     array_find is_recent_menu fm = Ok (Some m) /\
     extract raw =
       match recent_items_of m with
       | Some items => try_catch (recent_folders (Some (JArray items))) []
       | None => []
       end) /\
  (forall pre post,
     fm = pre ++ JNull :: post ->
     forallb (fun x => negb (recent_menu_item x)) pre = true ->
     array_find is_recent_menu fm = Throw /\ extract raw = []) /\
  (forall found,
     array_find is_recent_menu fm = Ok found ->
     found = first_recent_menu fm) /\
  (first_recent_menu fm = None -> extract raw = []) /\
  (forall m,
     first_recent_menu fm = Some m -> recent_items_of m = None ->
     extract raw = []).
Proof.
  intros Hfm. split; [|split; [|split; [|split; [|split]]]].
  - intros item. split.
    + intros H.
      destruct (json_null_dec item) as [->|Hitem]; [discriminate|].
      rewrite (is_recent_menu_pure _ Hitem) in H.
      apply recent_menu_item_exact. congruence.
    + intros Hexact. apply recent_menu_item_exact in Hexact.
      rewrite (is_recent_menu_pure _ (recent_menu_item_not_null _ Hexact)).
      rewrite Hexact. reflexivity.
  - intros pre m post -> Hm Hpre Hnn.
    assert (Hfind : array_find is_recent_menu (pre ++ m :: post) = Ok (Some m))
      by (apply array_find_selects; assumption).
    split; [exact Hfind|]. apply (extract_selected _ _ _ Hfm Hfind).
  - intros pre post -> Hpre.
    pose proof (array_find_null_throws pre post Hpre) as Hthrow.
    split; [exact Hthrow|].
    unfold extract. rewrite (extract_body_file_items _ _ Hfm), Hthrow.
    reflexivity.
  - apply array_find_first.
  - apply (extract_no_match _ _ Hfm).
  - intros m. apply (extract_no_submenu _ _ _ Hfm).
Qed.

Lemma recent_menu_selection_witness :
  file_items_of two_menus_doc =
    Some [separator; unescaped_menu; menu_a; JNull; menu_b] /\
  array_find is_recent_menu
    [separator; unescaped_menu; menu_a; JNull; menu_b] = Ok (Some menu_a) /\
  extract two_menus_doc =
    [ {| uri := Some (JString "/Users/alice/a"); label := "a";
         path := Some (JString "/Users/alice/a") |} ].
Proof.
  split; [reflexivity|].
  destruct (recent_menu_selection two_menus_doc _ eq_refl)
    as (_ & Hsel & _).
  destruct (Hsel [separator; unescaped_menu] menu_a [JNull; menu_b]
              eq_refl eq_refl eq_refl eq_refl) as [Hfind Hout].
  split; [exact Hfind|]. rewrite Hout. reflexivity.
Defined.

(** The guard of the selection above: a [null] element before the recent
    menu makes the callback of [find] throw, and the [catch] returns the
    empty list. *)
Example null_before_recent_menu :
  extract (storage (JArray [
    JNull;
    recent_menu (JArray [folder "alice/dev/proj" "/Users/alice/dev/proj"])]))
  = [].
Proof. reflexivity. Qed.

(** Only the exact label matches: the unescaped and the single-ampersand
    spellings of the label select nothing. *)
Example other_labels_do_not_match :
  recent_menu_item
    (obj [("id", JString "submenuitem.MenubarRecentMenu");
          ("label", JString "Open Recent")]) = false /\
  recent_menu_item
    (obj [("id", JString "submenuitem.MenubarRecentMenu");
          ("label", JString "Open &Recent")]) = false /\
  extract (storage (JArray [
    obj [("id", JString "submenuitem.MenubarRecentMenu");
         ("label", JString "Open Recent");
         ("submenu",
          obj [("items",
                JArray [folder "alice/dev/proj" "/Users/alice/dev/proj"])])]]))
  = [].
Proof. repeat split; reflexivity. Qed.

(** C2.  For a well-formed [submenu.items] sequence the output is made, in
    order, of the projects of exactly the entries whose [id] is
    ["openRecentFolder"] and whose [uri] is present and an object: one
    project per surviving entry, nothing sorted, merged or cut.  An entry
    with another [id], or with an absent or string-valued [uri], is not a
    surviving entry. *)
Theorem extract_filters_in_order (raw : json) (items : list json) :
  recent_entries raw = Some items ->
  well_formed items = true ->
  extract raw = List.map project_of (List.filter recent_folder_entry items) /\
  (forall item,
     recent_folder_entry item = true <->
     field "id" item = Some (JString "openRecentFolder") /\
     exists u, field "uri" item = Some u /\ is_object u = true) /\
  (forall item s,
     field "uri" item = None \/ field "uri" item = Some (JString s) ->
     recent_folder_entry item = false).
Proof.
  intros Hentries Hwf. split; [|split].
  - unfold extract. rewrite (extract_body_recent_entries _ _ Hentries).
    rewrite (recent_folders_well_formed _ Hwf). reflexivity.
  - intros item. split.
    + intros Hentry. split; [|apply recent_folder_entry_uri, Hentry].
      unfold recent_folder_entry in Hentry.
      destruct (field "id" item) as [[]|]; simpl in Hentry; try discriminate.
      destruct (field "uri" item); [|discriminate].
      apply andb_prop in Hentry as [Hid _].
      apply String.eqb_eq in Hid. congruence.
    + intros (Hid & u & Hu & Hobj). unfold recent_folder_entry.
      rewrite Hid, Hu. exact Hobj.
  - intros item s Huri. unfold recent_folder_entry.
    destruct (field "id" item ≫= as_string); [|reflexivity].
    destruct Huri as [-> | ->]; [reflexivity|]. apply andb_false_r.
Qed.

Lemma extract_filters_in_order_witness :
  recent_entries alice_doc =
    Some [folder "alice/dev/proj" "/Users/alice/dev/proj";
          separator;
          obj [("id", JString "openRecentFile");
               ("uri", file_uri "/Users/alice/notes.txt");
               ("label", JString "~/notes.txt")];
          obj [("id", JString "openRecentFolder");
               ("uri", JString "file:///Users/alice/old");
               ("label", JString "~/old")];
          folder "~/work/site" "/Users/alice/work/site"] /\
  extract alice_doc =
    [ {| uri := Some (JString "/Users/alice/dev/proj"); label := "proj";
         path := Some (JString "/Users/alice/dev/proj") |};
      {| uri := Some (JString "/Users/alice/work/site"); label := "site";
         path := Some (JString "/Users/alice/work/site") |} ].
Proof.
  split; [reflexivity|].
  destruct (extract_filters_in_order alice_doc _ eq_refl eq_refl) as [H _].
  rewrite H. reflexivity.
Defined.

(** C3.  For an entry that survives the filters (its label being a string,
    as the [map] callback needs to produce anything), the produced
    RecentProject has [path] and [uri] both equal to the entry's [uri.path]
    as it stands, and [label] equal to the last ['/']-separated segment of
    the entry's label: a segment without ['/'] that is the whole label or
    what follows its last ['/'].  The document with [uri.path]
    ["/Users/alice/dev/proj"] and label ["alice/dev/proj"] extracts to
    [path] ["/Users/alice/dev/proj"] and label ["proj"]. *)
Theorem to_project_fields (item : json) (l : string) :
  recent_folder_entry item = true ->
  field "label" item = Some (JString l) ->
  to_project item =
    Ok {| uri := uri_path item; label := last_segment l;
          path := uri_path item |} /\
  has_slash (last_segment l) = false /\
  (if has_slash l
   then exists before : string, l = (before ++ "/" ++ last_segment l)%string
   else last_segment l = l) /\
  extract round_trip_doc =
    [ {| uri := Some (JString "/Users/alice/dev/proj"); label := "proj";
         path := Some (JString "/Users/alice/dev/proj") |} ].
Proof.
  intros Hentry Hlabel. split; [|split; [|split]].
  - rewrite (to_project_string_label _ Hentry).
    + unfold project_of, label_of. rewrite Hlabel. reflexivity.
    + unfold has_string_label. rewrite Hlabel. reflexivity.
  - apply last_segment_has_no_slash.
  - destruct (has_slash l) eqn:Hl.
    + apply last_segment_suffix, Hl.
    + apply last_segment_no_slash, Hl.
  - reflexivity.
Qed.

Lemma to_project_fields_witness :
  recent_folder_entry (folder "alice/dev/proj" "/Users/alice/dev/proj") = true /\
  to_project (folder "alice/dev/proj" "/Users/alice/dev/proj") =
    Ok {| uri := Some (JString "/Users/alice/dev/proj"); label := "proj";
          path := Some (JString "/Users/alice/dev/proj") |}.
Proof.
  split; [reflexivity|].
  destruct (to_project_fields
              (folder "alice/dev/proj" "/Users/alice/dev/proj")
              "alice/dev/proj" eq_refl eq_refl) as [H _].
  rewrite H. reflexivity.
Defined.

(** Every project of the output is the project of a recent-folder entry of
    the located sequence. *)
Lemma extract_from_entry (raw : json) (p : RecentProject) :
  In p (extract raw) ->
  exists items item,
    recent_entries raw = Some items /\ In item items /\
    recent_folder_entry item = true /\ p = project_of item.
Proof.
  rewrite extract_recent_entries.
  destruct (recent_entries raw) as [items|]; [|intros []].
  destruct (forallb not_null items) eqn:Hnn.
  - rewrite (recent_folders_no_null _ Hnn).
    destruct (array_map to_project (List.filter recent_folder_entry items))
      as [r|] eqn:Hmap; [|intros []].
    simpl. intros Hp.
    destruct (array_map_source _ _ _ _ Hmap Hp) as (item & Hitem & Hproj).
    apply filter_In in Hitem as [Hin Hentry].
    exists items, item. repeat split; try assumption.
    apply (to_project_ok _ _ Hentry Hproj).
  - rewrite (recent_folders_null _ Hnn). intros [].
Qed.

(** C5 fails as stated: an entry whose [uri.path] is the empty string gives a
    project whose [path] is the empty string. *)
Lemma empty_path_reaches_output :
  ~ (forall p, In p (extract empty_path_doc) ->
               nonempty_string (path p) = true).
Proof.
  intros H.
  specialize (H {| uri := Some (JString ""); label := "scratch";
                   path := Some (JString "") |}).
  assert (Hin : In {| uri := Some (JString ""); label := "scratch";
                      path := Some (JString "") |}
                   (extract empty_path_doc))
    by (left; reflexivity).
  apply H in Hin. discriminate.
Qed.

(** C5, amended.  Every RecentProject of the output carries as [path] and as
    [uri] the [uri.path] of a surviving entry of the located sequence, as it
    stands; so its [path] is a non-empty string exactly when that entry's
    [uri.path] is one. *)
Theorem output_path_verbatim (raw : json) (p : RecentProject) :
  In p (extract raw) ->
  exists item,
    In item (default [] (recent_entries raw)) /\
    recent_folder_entry item = true /\
    path p = uri_path item /\
    uri p = uri_path item /\
    nonempty_string (path p) = nonempty_string (uri_path item).
Proof.
  intros Hp.
  destruct (extract_from_entry _ _ Hp) as (items & item & He & Hin & Hf & ->).
  exists item. rewrite He. simpl. repeat split; assumption.
Qed.

Lemma output_path_verbatim_witness :
  In {| uri := Some (JString "/Users/alice/dev/proj"); label := "proj";
        path := Some (JString "/Users/alice/dev/proj") |}
     (extract round_trip_doc) /\
  exists item,
    In item (default [] (recent_entries round_trip_doc)) /\
    uri_path item = Some (JString "/Users/alice/dev/proj").
Proof.
  assert (Hin : In {| uri := Some (JString "/Users/alice/dev/proj");
                      label := "proj";
                      path := Some (JString "/Users/alice/dev/proj") |}
                   (extract round_trip_doc))
    by (left; reflexivity).
  split; [exact Hin|].
  destruct (output_path_verbatim round_trip_doc _ Hin)
    as (item & Hitem & _ & Hpath & _).
  exists item. split; [exact Hitem|]. symmetry. exact Hpath.
Defined.

(** C6 fails as stated: a surviving entry without a label produces no
    project, and takes the other surviving entries with it. *)
Lemma absent_label_produces_nothing :
  ~ (forall item,
       In item (default [] (recent_entries unlabelled_doc)) ->
       recent_folder_entry item = true ->
       field "label" item = None \/ field "label" item = Some (JString "") ->
       exists p, In p (extract unlabelled_doc) /\ label p = "").
Proof.
  intros H.
  destruct (H unlabelled_folder) as (p & Hp & _).
  - right. left. reflexivity.
  - reflexivity.
  - left. reflexivity.
  - exact Hp.
Qed.

(** C6, amended.  In a well-formed entry sequence, a surviving entry whose
    label is the empty string produces a RecentProject with the empty label,
    present in the output together with the project of every other surviving
    entry. *)
Theorem empty_label_project (raw : json) (items : list json) (item : json) :
  recent_entries raw = Some items ->
  well_formed items = true ->
  In item items ->
  recent_folder_entry item = true ->
  field "label" item = Some (JString "") ->
  to_project item = Ok (project_of item) /\
  label (project_of item) = "" /\
  In (project_of item) (extract raw) /\
  (forall other,
     In other items -> recent_folder_entry other = true ->
     In (project_of other) (extract raw)).
Proof.
  intros Hentries Hwf Hin Hentry Hlabel.
  assert (Hout : extract raw =
                 List.map project_of (List.filter recent_folder_entry items)).
  { unfold extract. rewrite (extract_body_recent_entries _ _ Hentries).
    rewrite (recent_folders_well_formed _ Hwf). reflexivity. }
  assert (Hall : forall other,
             In other items -> recent_folder_entry other = true ->
             In (project_of other) (extract raw)).
  { intros other Ho Hoe. rewrite Hout. apply in_map, filter_In.
    split; assumption. }
  split; [|split; [|split]].
  - apply to_project_string_label; [exact Hentry|].
    unfold has_string_label. rewrite Hlabel. reflexivity.
  - unfold project_of, label_of. rewrite Hlabel. reflexivity.
  - apply Hall; assumption.
  - exact Hall.
Qed.

Lemma empty_label_project_witness :
  well_formed [folder "~/a" "/Users/alice/a"; folder "" "/Users/alice/b";
               folder "~/c" "/Users/alice/c"] = true /\
  In {| uri := Some (JString "/Users/alice/b"); label := "";
        path := Some (JString "/Users/alice/b") |}
     (extract empty_label_doc).
Proof.
  split; [reflexivity|].
  destruct (empty_label_project empty_label_doc _
              (folder "" "/Users/alice/b") eq_refl eq_refl
              (or_intror (or_introl eq_refl)) eq_refl eq_refl)
    as (_ & _ & Hin & _).
  exact Hin.
Defined.

(** C10.  When an entry that passes both filters has a label that is not a
    string (absent, or of another type), the [map] callback throws on it, the
    [try] block ends by an exception, and the extraction is the empty list:
    the projects of the valid entries are lost with it. *)
Theorem non_string_label_discards_all (raw : json) (items : list json)
        (item : json) :
  recent_entries raw = Some items ->
  In item items ->
  recent_folder_entry item = true ->
  has_string_label item = false ->
  to_project item = Throw /\
  extract_body raw = Throw /\
  extract raw = [].
Proof.
  intros Hentries Hin Hentry Hlabel.
  pose proof (to_project_other_label _ Hentry Hlabel) as Hthrow.
  assert (Hbody : extract_body raw = Throw).
  { rewrite (extract_body_recent_entries _ _ Hentries).
    destruct (forallb not_null items) eqn:Hnn.
    - rewrite (recent_folders_no_null _ Hnn).
      apply (array_map_throw _ _ item); [|exact Hthrow].
      apply filter_In. split; assumption.
    - apply recent_folders_null, Hnn. }
  split; [exact Hthrow|]. split; [exact Hbody|].
  unfold extract. rewrite Hbody. reflexivity.
Qed.

Lemma non_string_label_discards_all_witness :
  recent_folder_entry unlabelled_folder = true /\
  has_string_label unlabelled_folder = false /\
  to_project (folder "alice/dev/proj" "/Users/alice/dev/proj") =
    Ok {| uri := Some (JString "/Users/alice/dev/proj"); label := "proj";
          path := Some (JString "/Users/alice/dev/proj") |} /\
  extract unlabelled_doc = [].
Proof.
  split; [reflexivity|]. split; [reflexivity|]. split; [reflexivity|].
  destruct (non_string_label_discards_all unlabelled_doc _ unlabelled_folder
              eq_refl (or_intror (or_introl eq_refl)) eq_refl eq_refl)
    as (_ & _ & H).
  exact H.
Defined.

(** ** The command and the launcher *)

Lemma Command_of_no_projects (h : Host) :
  getRecentProjects h = [] -> Command h = empty_state_view.
Proof.
  intros H. unfold Command, run_effect, render. simpl. rewrite H. reflexivity.
Qed.

(** A host whose file exists and parses runs the extraction on the parsed
    document. *)
Lemma getRecentProjects_parsed (h : Host) (text : string) (raw : json) :
  existsSync h (STORAGE_FILE_PATH h) = true ->
  readFileSync h (STORAGE_FILE_PATH h) = Ok text ->
  JSON_parse h text = Ok raw ->
  getRecentProjects h = extract raw.
Proof.
  intros He Hr Hp. unfold getRecentProjects, getRecentProjects_body, extract.
  rewrite He, Hr. simpl. rewrite Hp. reflexivity.
Qed.

(** C7.  When the storage file does not exist, the [try] block returns the
    empty list by its first guard (it does not throw), [getRecentProjects]
    is empty and the command shows the empty-state view and no row; a host
    whose file is present but gives no recent project shows the same view. *)
Theorem missing_file_empty_state (h : Host) :
  existsSync h (STORAGE_FILE_PATH h) = false ->
  getRecentProjects_body h = Ok [] /\
  getRecentProjects h = [] /\
  Command h = empty_state_view /\
  (forall h', getRecentProjects h' = [] -> Command h' = Command h).
Proof.
  intros Hmissing.
  assert (Hbody : getRecentProjects_body h = Ok []).
  { unfold getRecentProjects_body. rewrite Hmissing. reflexivity. }
  assert (Hnil : getRecentProjects h = []).
  { unfold getRecentProjects. rewrite Hbody. reflexivity. }
  split; [exact Hbody|]. split; [exact Hnil|].
  split; [apply Command_of_no_projects, Hnil|].
  intros h' Hnil'.
  rewrite (Command_of_no_projects _ Hnil), (Command_of_no_projects _ Hnil').
  reflexivity.
Qed.

Lemma missing_file_empty_state_witness :
  existsSync host_without_file (STORAGE_FILE_PATH host_without_file) = false /\
  Command host_without_file = empty_state_view /\
  Command (host_with (storage (JArray [recent_menu (JArray [])]))) =
    Command host_without_file.
Proof.
  split; [reflexivity|].
  destruct (missing_file_empty_state host_without_file eq_refl)
    as (_ & _ & Hview & Hsame).
  split; [exact Hview|]. apply Hsame. reflexivity.
Defined.

(** C8 fails as stated: after a shell command that succeeded, a success
    notification that does not complete leaves the window open; after one
    that failed, a failure notification that does not complete rejects the
    promise, so the exception reaches the caller. *)
Lemma launcher_outcomes_need_the_toasts :
  ~ (exec_ok world_success_toast_fails
       (open_command "/Users/alice/dev/proj") = true ->
     In CloseMainWindow
        (fst (openProjectInWindsurf world_success_toast_fails
                "/Users/alice/dev/proj"))) /\
  ~ (exec_ok world_all_fail (open_command "/Users/alice/dev/proj") = false ->
     snd (openProjectInWindsurf world_all_fail "/Users/alice/dev/proj") =
       Ok tt).
Proof.
  split; intros H; specialize (H eq_refl).
  - simpl in H. destruct H as [H|[H|[H|[]]]]; discriminate H.
  - discriminate H.
Qed.

(** C8, amended.  A launch that succeeds shows the success notification
    first of all and, when that call completes, then calls
    [closeMainWindow]; when closing completes too nothing else is done and
    the promise resolves.  A launch that fails shows the failure
    notification and makes no other call ([closeMainWindow] is not called);
    the promise then resolves exactly when the failure notification call
    completes, so an exception reaches the caller only when that call itself
    fails. *)
Theorem launcher_outcomes (w : World) (projectPath : string) :
  (exec_ok w (open_command projectPath) = true ->
   (exists rest,
      fst (openProjectInWindsurf w projectPath) =
        Exec (open_command projectPath) :: ShowToast success_toast :: rest /\
      (toast_ok w success_toast = true ->
       exists rest', rest = CloseMainWindow :: rest')) /\
   (toast_ok w success_toast = true -> close_ok w = true ->
    openProjectInWindsurf w projectPath =
      ([Exec (open_command projectPath); ShowToast success_toast;
        CloseMainWindow], Ok tt))) /\
  (exec_ok w (open_command projectPath) = false ->
   fst (openProjectInWindsurf w projectPath) =
     [Exec (open_command projectPath); ShowToast failure_toast] /\
   ~ In CloseMainWindow (fst (openProjectInWindsurf w projectPath)) /\
   (snd (openProjectInWindsurf w projectPath) = Ok tt <->
    toast_ok w failure_toast = true)) /\
  style success_toast = Success /\ style failure_toast = Failure.
Proof.
  split; [|split; [|split; reflexivity]].
  - intros Hexec. split.
    + unfold openProjectInWindsurf, execAsync, showToast, closeMainWindow.
      rewrite Hexec.
      destruct (toast_ok w success_toast); destruct (close_ok w);
        destruct (toast_ok w failure_toast); simpl;
        eexists; (split; [reflexivity|]); intros Ht;
        try discriminate Ht; eexists; reflexivity.
    + intros Htoast Hclose.
      unfold openProjectInWindsurf, execAsync, showToast, closeMainWindow.
      rewrite Hexec, Htoast, Hclose. reflexivity.
  - intros Hexec.
    assert (Htrace : fst (openProjectInWindsurf w projectPath) =
                     [Exec (open_command projectPath);
                      ShowToast failure_toast]).
    { unfold openProjectInWindsurf, execAsync, showToast.
      rewrite Hexec. reflexivity. }
    split; [exact Htrace|]. split.
    + rewrite Htrace. simpl. intros [H|[H|[]]]; discriminate.
    + unfold openProjectInWindsurf, execAsync, showToast.
      rewrite Hexec.
      destruct (toast_ok w failure_toast); simpl; split; intros H;
        try reflexivity; discriminate H.
Qed.

Lemma launcher_outcomes_witness :
  exec_ok world_ok (open_command "/Users/alice/dev/proj") = true /\
  openProjectInWindsurf world_ok "/Users/alice/dev/proj" =
    ([Exec (open_command "/Users/alice/dev/proj"); ShowToast success_toast;
      CloseMainWindow], Ok tt) /\
  exec_ok world_exec_fails (open_command "/Users/alice/dev/proj") = false /\
  fst (openProjectInWindsurf world_exec_fails "/Users/alice/dev/proj") =
    [Exec (open_command "/Users/alice/dev/proj"); ShowToast failure_toast] /\
  snd (openProjectInWindsurf world_exec_fails "/Users/alice/dev/proj") =
    Ok tt /\
  snd (openProjectInWindsurf world_all_fail "/Users/alice/dev/proj") <>
    Ok tt.
Proof.
  split; [reflexivity|]. split.
  { destruct (launcher_outcomes world_ok "/Users/alice/dev/proj")
      as (Hok & _).
    destruct (Hok eq_refl) as [_ Hall]. apply Hall; reflexivity. }
  split; [reflexivity|].
  destruct (launcher_outcomes world_exec_fails "/Users/alice/dev/proj")
    as (_ & Hfail & _).
  destruct (Hfail eq_refl) as (Htrace & _ & Hsettled).
  split; [exact Htrace|]. split; [apply Hsettled; reflexivity|].
  destruct (launcher_outcomes world_all_fail "/Users/alice/dev/proj")
    as (_ & Hfail' & _).
  destruct (Hfail' eq_refl) as (_ & _ & Hsettled').
  intros Hres. apply Hsettled' in Hres. discriminate Hres.
Defined.

(** The [catch] block is not itself guarded: when the failure notification
    does not complete, its rejection reaches the caller. *)
Example failure_toast_rejecting :
  openProjectInWindsurf
    {| exec_ok := fun _ => false; toast_ok := fun _ => false;
       close_ok := true |} "/Users/alice/dev/proj" =
    ([Exec (open_command "/Users/alice/dev/proj"); ShowToast failure_toast],
     Throw).
Proof. reflexivity. Qed.

(** C9.  Whatever the world answers, the launcher runs one shell command,
    first of all its calls: the text [open -a Windsurf ], a double quote,
    the path character for character, and a closing double quote.  A double
    quote inside the path is passed on as it is. *)
Theorem launcher_command (w : World) (projectPath : string) :
  open_command projectPath =
    ("open -a Windsurf " ++
     String (ascii_of_nat 34) (projectPath ++ String (ascii_of_nat 34) ""))
    %string /\
  (exists rest settled,
     openProjectInWindsurf w projectPath =
       (Exec (open_command projectPath) :: rest, settled) /\
     forall command, ~ In (Exec command) rest) /\
  open_command (String "a" (String (ascii_of_nat 34) "b")) =
    ("open -a Windsurf " ++
     String (ascii_of_nat 34)
       (String "a" (String (ascii_of_nat 34)
          (String "b" (String (ascii_of_nat 34) "")))))%string.
Proof.
  split; [reflexivity|]. split; [|reflexivity].
  unfold openProjectInWindsurf, execAsync, showToast, closeMainWindow.
  destruct (exec_ok w (open_command projectPath));
    destruct (toast_ok w success_toast);
    destruct (toast_ok w failure_toast);
    destruct (close_ok w); simpl;
    eexists _, _; (split; [reflexivity|]);
    intros command Hin; simpl in Hin;
    repeat (destruct Hin as [Hin|Hin]; [discriminate|]); exact Hin.
Qed.

(** * Further properties of the extractor *)

Lemma array_map_ok_pure {B : Type} (f : json -> result B) (g : json -> B)
      (l : list json) (r : list B) :
  (forall x y, In x l -> f x = Ok y -> y = g x) ->
  array_map f l = Ok r -> r = List.map g l.
Proof.
  revert r. induction l as [|x l IH]; simpl; intros r Hf H.
  - congruence.
  - destruct (f x) as [y|] eqn:Hx; [|discriminate]. simpl in H.
    destruct (array_map f l) as [r'|]; [|discriminate]. simpl in H.
    inversion H; subst. f_equal.
    + apply Hf; [left; reflexivity | exact Hx].
    + apply IH; [|reflexivity]. intros z y' Hz. apply Hf. right. exact Hz.
Qed.

Lemma array_map_all_ok {B : Type} (f : json -> result B) (l : list json)
      (r : list B) (x : json) :
  array_map f l = Ok r -> In x l -> exists y, f x = Ok y.
Proof.
  intros Hmap Hin. destruct (f x) as [y|] eqn:Hx; [eauto|].
  rewrite (array_map_throw _ _ _ Hin Hx) in Hmap. discriminate.
Qed.

Lemma In_null_forallb (items : list json) :
  In JNull items -> forallb not_null items = false.
Proof.
  induction items as [|x items IH]; simpl; intros Hin; [destruct Hin|].
  destruct Hin as [->|Hin]; [reflexivity|].
  rewrite (IH Hin). apply andb_false_r.
Qed.

(** X1.  The extraction is all or nothing: the output is empty, or the
    located entry sequence is well formed and the output is the project of
    every surviving entry, in order.  A partial list is never returned. *)
Theorem extract_all_or_nothing (raw : json) :
  extract raw = [] \/
  exists items,
    recent_entries raw = Some items /\
    well_formed items = true /\
    extract raw = List.map project_of (List.filter recent_folder_entry items).
Proof.
  rewrite extract_recent_entries.
  destruct (recent_entries raw) as [items|]; [|left; reflexivity].
  destruct (forallb not_null items) eqn:Hnn.
  - rewrite (recent_folders_no_null _ Hnn).
    destruct (array_map to_project (List.filter recent_folder_entry items))
      as [r|] eqn:Hmap; [|left; reflexivity].
    right. exists items. split; [reflexivity|]. split.
    + apply forallb_forall. intros x Hx. unfold well_formed_entry.
      rewrite (forallb_In _ _ _ Hnn Hx). simpl.
      destruct (recent_folder_entry x) eqn:Hentry; [|reflexivity]. simpl.
      destruct (has_string_label x) eqn:Hlabel; [reflexivity|].
      assert (Hin : In x (List.filter recent_folder_entry items))
        by (apply filter_In; split; assumption).
      destruct (array_map_all_ok _ _ _ _ Hmap Hin) as [y Hy].
      rewrite (to_project_other_label _ Hentry Hlabel) in Hy. discriminate.
    + simpl.
      apply (array_map_ok_pure to_project project_of
               (List.filter recent_folder_entry items) r); [|exact Hmap].
      intros x y Hx Hy. apply filter_In in Hx as [_ Hentry].
      apply (to_project_ok _ _ Hentry Hy).
  - rewrite (recent_folders_null _ Hnn). left. reflexivity.
Qed.

(** X2.  A [null] element anywhere in the located entry sequence makes the
    first [filter] callback throw: the [try] block ends by an exception and
    the extraction is empty, whatever the other entries are. *)
Theorem null_entry_discards_all (raw : json) (items : list json) :
  recent_entries raw = Some items ->
  In JNull items ->
  extract_body raw = Throw /\ extract raw = [].
Proof.
  intros Hentries Hin.
  assert (Hbody : extract_body raw = Throw).
  { rewrite (extract_body_recent_entries _ _ Hentries).
    apply recent_folders_null, In_null_forallb, Hin. }
  split; [exact Hbody|]. unfold extract. rewrite Hbody. reflexivity.
Qed.

Lemma null_entry_discards_all_witness :
  recent_entries null_entry_doc =
    Some [folder "alice/dev/proj" "/Users/alice/dev/proj"; JNull] /\
  extract null_entry_doc = [].
Proof.
  split; [reflexivity|].
  destruct (null_entry_discards_all null_entry_doc _ eq_refl
              (or_intror (or_introl eq_refl))) as [_ H].
  exact H.
Defined.

(** X3.  No label of the output holds a ['/']. *)
Theorem output_label_has_no_slash (raw : json) (p : RecentProject) :
  In p (extract raw) -> has_slash (label p) = false.
Proof.
  intros Hp.
  destruct (extract_from_entry _ _ Hp) as (items & item & _ & _ & _ & ->).
  unfold project_of, label_of. simpl.
  destruct (field "label" item ≫= as_string); [|reflexivity].
  apply last_segment_has_no_slash.
Qed.

Lemma output_label_has_no_slash_witness :
  In {| uri := Some (JString "/Users/alice/work/site"); label := "site";
        path := Some (JString "/Users/alice/work/site") |}
     (extract alice_doc) /\
  has_slash "site" = false.
Proof.
  assert (Hin : In {| uri := Some (JString "/Users/alice/work/site");
                      label := "site";
                      path := Some (JString "/Users/alice/work/site") |}
                   (extract alice_doc))
    by (right; left; reflexivity).
  split; [exact Hin|].
  apply (output_label_has_no_slash alice_doc _ Hin).
Defined.

Lemma has_slash_app_slash (before : string) :
  has_slash (before ++ "/")%string = true.
Proof.
  induction before as [|c before IH]; [reflexivity|].
  change (has_slash (String c (before ++ "/")%string) = true).
  simpl. rewrite IH. apply orb_true_r.
Qed.

Lemma last_segment_app_slash (before : string) :
  last_segment (before ++ "/")%string = EmptyString.
Proof.
  induction before as [|c before IH]; [reflexivity|].
  change (last_segment (String c (before ++ "/")%string) = EmptyString).
  simpl. rewrite has_slash_app_slash. exact IH.
Qed.

Lemma last_segment_empty (l : string) :
  last_segment l = EmptyString <->
  l = EmptyString \/ exists before : string, l = (before ++ "/")%string.
Proof.
  split.
  - intros H. destruct (has_slash l) eqn:Hl.
    + right. destruct (last_segment_suffix _ Hl) as [before Hb].
      exists before. rewrite H in Hb. exact Hb.
    + left. rewrite (last_segment_no_slash _ Hl) in H. exact H.
  - intros [-> | [before ->]]; [reflexivity|].
    apply last_segment_app_slash.
Qed.

(** X4.  A surviving entry gets the empty label exactly when its label
    string is empty or ends with ['/']: a trailing ['/'] leaves nothing
    after it, and the row's title is then empty. *)
Theorem empty_label_iff_trailing_slash (item : json) (l : string) :
  recent_folder_entry item = true ->
  field "label" item = Some (JString l) ->
  exists p,
    to_project item = Ok p /\
    (label p = "" <->
     l = "" \/ exists before : string, l = (before ++ "/")%string).
Proof.
  intros Hentry Hlabel. exists (project_of item). split.
  - apply to_project_string_label; [exact Hentry|].
    unfold has_string_label. rewrite Hlabel. reflexivity.
  - unfold project_of, label_of. rewrite Hlabel. simpl.
    apply last_segment_empty.
Qed.

Lemma empty_label_iff_trailing_slash_witness :
  recent_folder_entry (folder "~/work/" "/Users/alice/work") = true /\
  exists p,
    to_project (folder "~/work/" "/Users/alice/work") = Ok p /\
    label p = "".
Proof.
  split; [reflexivity|].
  destruct (empty_label_iff_trailing_slash
              (folder "~/work/" "/Users/alice/work") "~/work/"
              eq_refl eq_refl) as (p & Hp & Hiff).
  exists p. split; [exact Hp|].
  apply Hiff. right. exists "~/work". reflexivity.
Defined.

(** X5.  An array counts as an object for the [uri] filter: a recent-folder
    entry whose [uri] is an array survives, and its project has [path] and
    [uri] both [undefined]. *)
Theorem array_uri_gives_undefined_path (item : json) (elems : list json)
        (l : string) :
  field "id" item = Some (JString "openRecentFolder") ->
  field "uri" item = Some (JArray elems) ->
  field "label" item = Some (JString l) ->
  has_object_uri item = Ok true /\
  to_project item =
    Ok {| uri := None; label := last_segment l; path := None |}.
Proof.
  intros Hid Huri Hlabel.
  assert (Hentry : recent_folder_entry item = true)
    by (unfold recent_folder_entry; rewrite Hid, Huri; reflexivity).
  split.
  - rewrite (has_object_uri_pure _ (recent_folder_entry_not_null _ Hentry)).
    unfold object_uri. rewrite Huri. reflexivity.
  - rewrite (to_project_string_label _ Hentry).
    + unfold project_of, uri_path, label_of. rewrite Huri, Hlabel.
      reflexivity.
    + unfold has_string_label. rewrite Hlabel. reflexivity.
Qed.

Lemma array_uri_gives_undefined_path_witness :
  field "uri" array_uri_folder = Some (JArray []) /\
  extract (storage (JArray [recent_menu (JArray [array_uri_folder])])) =
    [ {| uri := None; label := "odd"; path := None |} ] /\
  to_project array_uri_folder =
    Ok {| uri := None; label := "odd"; path := None |}.
Proof.
  split; [reflexivity|]. split; [reflexivity|].
  destruct (array_uri_gives_undefined_path array_uri_folder [] "~/odd"
              eq_refl eq_refl eq_refl) as [_ H].
  rewrite H. reflexivity.
Defined.

(** X6.  An element that is not [null] and not a recent-folder entry (a
    separator, a recent file, a string) has no effect: with it or without
    it the returned expression gives the same result, exception included. *)
Theorem other_elements_have_no_effect (before after : list json) (x : json) :
  not_null x = true ->
  recent_folder_entry x = false ->
  recent_folders (Some (JArray (before ++ x :: after))) =
  recent_folders (Some (JArray (before ++ after))).
Proof.
  intros Hx Hentry.
  assert (Hnn : forallb not_null (before ++ x :: after) =
                forallb not_null (before ++ after)).
  { rewrite !forallb_app. simpl. rewrite Hx. reflexivity. }
  destruct (forallb not_null (before ++ after)) eqn:Hrest.
  - rewrite (recent_folders_no_null _ Hnn), (recent_folders_no_null _ Hrest).
    rewrite !List.filter_app. simpl. rewrite Hentry. reflexivity.
  - rewrite (recent_folders_null _ Hnn), (recent_folders_null _ Hrest).
    reflexivity.
Qed.

Lemma other_elements_have_no_effect_witness :
  recent_folder_entry separator = false /\
  recent_folders
    (Some (JArray [folder "~/a" "/Users/alice/a"; separator;
                   folder "~/c" "/Users/alice/c"])) =
  recent_folders
    (Some (JArray [folder "~/a" "/Users/alice/a";
                   folder "~/c" "/Users/alice/c"])).
Proof.
  split; [reflexivity|].
  apply (other_elements_have_no_effect [folder "~/a" "/Users/alice/a"]
           [folder "~/c" "/Users/alice/c"] separator); reflexivity.
Defined.

(** * Further properties of the storage reader and the command *)

(** X7.  A storage file that is there but cannot be read, or whose text is
    not JSON, ends the [try] block by an exception (unlike a missing file);
    the [catch] returns the empty list and the command shows the empty-state
    view. *)
Theorem unreadable_file_empty_state (h : Host) :
  existsSync h (STORAGE_FILE_PATH h) = true ->
  (readFileSync h (STORAGE_FILE_PATH h) = Throw \/
   exists text, readFileSync h (STORAGE_FILE_PATH h) = Ok text /\
                JSON_parse h text = Throw) ->
  getRecentProjects_body h = Throw /\
  getRecentProjects h = [] /\
  Command h = empty_state_view.
Proof.
  intros Hexists Hfail.
  assert (Hbody : getRecentProjects_body h = Throw).
  { unfold getRecentProjects_body. rewrite Hexists. simpl.
    destruct Hfail as [-> | (text & -> & Hparse)]; [reflexivity|].
    simpl. rewrite Hparse. reflexivity. }
  assert (Hnil : getRecentProjects h = [])
    by (unfold getRecentProjects; rewrite Hbody; reflexivity).
  split; [exact Hbody|]. split; [exact Hnil|].
  apply Command_of_no_projects, Hnil.
Qed.

Lemma unreadable_file_empty_state_witness :
  existsSync host_unparsable (STORAGE_FILE_PATH host_unparsable) = true /\
  getRecentProjects_body host_unparsable = Throw /\
  Command host_unparsable = empty_state_view.
Proof.
  split; [reflexivity|].
  destruct (unreadable_file_empty_state host_unparsable eq_refl)
    as (Hbody & _ & Hview).
  - right. exists "{". split; reflexivity.
  - split; assumption.
Defined.

(** X8.  [getRecentProjects] consults the host at the storage path only:
    two hosts with the same home directory that agree on that one path (and
    on [JSON.parse]) give the same projects, whatever else their file
    systems hold. *)
Theorem getRecentProjects_reads_storage_only (h h' : Host) :
  homedir h = homedir h' ->
  existsSync h (STORAGE_FILE_PATH h) = existsSync h' (STORAGE_FILE_PATH h) ->
  readFileSync h (STORAGE_FILE_PATH h) =
    readFileSync h' (STORAGE_FILE_PATH h) ->
  (forall text, JSON_parse h text = JSON_parse h' text) ->
  getRecentProjects h = getRecentProjects h' /\ Command h = Command h'.
Proof.
  intros Hhome Hexists Hread Hparse.
  assert (Hpath : STORAGE_FILE_PATH h' = STORAGE_FILE_PATH h)
    by (unfold STORAGE_FILE_PATH; rewrite Hhome; reflexivity).
  assert (Heq : getRecentProjects h = getRecentProjects h').
  { unfold getRecentProjects, getRecentProjects_body.
    rewrite Hpath, <- Hexists, <- Hread.
    destruct (existsSync h (STORAGE_FILE_PATH h)); simpl; [|reflexivity].
    destruct (readFileSync h (STORAGE_FILE_PATH h)) as [text|];
      [|reflexivity].
    simpl. rewrite Hparse. reflexivity. }
  split; [exact Heq|].
  unfold Command, run_effect. rewrite Heq. reflexivity.
Qed.

Lemma getRecentProjects_reads_storage_only_witness :
  getRecentProjects (host_with alice_doc) =
  getRecentProjects (host_only_storage alice_doc).
Proof.
  apply (getRecentProjects_reads_storage_only
           (host_with alice_doc) (host_only_storage alice_doc));
    reflexivity.
Defined.

(** X9.  From the file to the view: when the storage file parses to a
    document whose located entries are well formed and hold at least one
    recent folder, the command is no longer loading and shows one row per
    surviving entry, in order (title: the last label segment; subtitle, open
    target and copied text: [uri.path]), and no empty-state view. *)
Theorem Command_rows (h : Host) (text : string) (raw : json)
        (items : list json) :
  existsSync h (STORAGE_FILE_PATH h) = true ->
  readFileSync h (STORAGE_FILE_PATH h) = Ok text ->
  JSON_parse h text = Ok raw ->
  recent_entries raw = Some items ->
  well_formed items = true ->
  List.filter recent_folder_entry items <> [] ->
  Command h =
    {| isLoading := false;
       children := List.map row_of (List.filter recent_folder_entry items) |}.
Proof.
  intros Hexists Hread Hparse Hentries Hwf Hsome.
  assert (Hout : getRecentProjects h =
                 List.map project_of (List.filter recent_folder_entry items)).
  { rewrite (getRecentProjects_parsed _ _ _ Hexists Hread Hparse).
    unfold extract. rewrite (extract_body_recent_entries _ _ Hentries).
    rewrite (recent_folders_well_formed _ Hwf). reflexivity. }
  unfold Command, run_effect, render. simpl. rewrite Hout.
  destruct (List.filter recent_folder_entry items) as [|x r];
    [congruence|].
  simpl. rewrite List.map_map. reflexivity.
Qed.

Lemma Command_rows_witness :
  Command (host_with alice_doc) =
    {| isLoading := false;
       children :=
         [Item "proj" (Some (JString "/Users/alice/dev/proj"))
               (Some (JString "/Users/alice/dev/proj"))
               (Some (JString "/Users/alice/dev/proj"));
          Item "site" (Some (JString "/Users/alice/work/site"))
               (Some (JString "/Users/alice/work/site"))
               (Some (JString "/Users/alice/work/site"))] |}.
Proof.
  rewrite (Command_rows (host_with alice_doc) "{}" alice_doc _
             eq_refl eq_refl eq_refl eq_refl eq_refl).
  - reflexivity.
  - discriminate.
Defined.

Lemma array_find_stops (pre post post' : list json) (m : json) :
  recent_menu_item m = true ->
  array_find is_recent_menu (pre ++ m :: post) =
  array_find is_recent_menu (pre ++ m :: post').
Proof.
  intros Hm. induction pre as [|x pre IH]; simpl.
  - rewrite (is_recent_menu_pure _ (recent_menu_item_not_null _ Hm)).
    simpl. rewrite Hm. reflexivity.
  - destruct (is_recent_menu x) as [[]|]; simpl;
      [reflexivity | exact IH | reflexivity].
Qed.

(** X10.  What follows the first recent menu in the [File] items is never
    looked at: [find] stops there, so two documents whose [File] items agree
    up to and including a recent menu extract to the same list, whatever
    comes after it (a [null], a second recent menu). *)
Theorem later_file_items_ignored (raw raw' : json) (pre post post' : list json)
        (m : json) :
  file_items_of raw = Some (pre ++ m :: post) ->
  file_items_of raw' = Some (pre ++ m :: post') ->
  recent_menu_item m = true ->
  extract raw = extract raw'.
Proof.
  intros Hraw Hraw' Hm. unfold extract.
  rewrite (extract_body_file_items _ _ Hraw).
  rewrite (extract_body_file_items _ _ Hraw').
  rewrite (array_find_stops pre post post' m Hm). reflexivity.
Qed.

Lemma later_file_items_ignored_witness :
  extract (storage (JArray [
    separator;
    recent_menu (JArray [folder "~/a" "/Users/alice/a"]);
    JNull;
    recent_menu (JArray [folder "~/b" "/Users/alice/b"])])) =
  extract (storage (JArray [
    separator;
    recent_menu (JArray [folder "~/a" "/Users/alice/a"])])).
Proof.
  apply (later_file_items_ignored _ _ [separator]
           [JNull; recent_menu (JArray [folder "~/b" "/Users/alice/b"])] []
           (recent_menu (JArray [folder "~/a" "/Users/alice/a"])));
    reflexivity.
Defined.

(** * Further properties of the launcher *)

(** X11.  The success notification is shown exactly when the shell command
    succeeds, and [closeMainWindow] is called exactly when, besides, the
    success notification completes. *)
Theorem launcher_success_path (w : World) (projectPath : string) :
  (In (ShowToast success_toast) (fst (openProjectInWindsurf w projectPath))
   <-> exec_ok w (open_command projectPath) = true) /\
  (In CloseMainWindow (fst (openProjectInWindsurf w projectPath))
   <-> exec_ok w (open_command projectPath) = true /\
       toast_ok w success_toast = true).
Proof.
  unfold openProjectInWindsurf, execAsync, showToast, closeMainWindow.
  destruct (exec_ok w (open_command projectPath));
    destruct (toast_ok w success_toast);
    destruct (toast_ok w failure_toast);
    destruct (close_ok w); simpl; unfold success_toast, failure_toast;
    intuition (try discriminate; try congruence; auto 6).
Qed.

Lemma launcher_success_path_witness :
  exec_ok world_ok (open_command "/Users/alice/dev/proj") = true /\
  In CloseMainWindow
     (fst (openProjectInWindsurf world_ok "/Users/alice/dev/proj")) /\
  ~ In (ShowToast success_toast)
       (fst (openProjectInWindsurf world_exec_fails "/Users/alice/dev/proj")).
Proof.
  split; [reflexivity|]. split.
  - apply (launcher_success_path world_ok "/Users/alice/dev/proj").
    split; reflexivity.
  - intros Hin.
    apply (launcher_success_path world_exec_fails "/Users/alice/dev/proj")
      in Hin.
    discriminate Hin.
Defined.

(** X12.  The failure notification is shown exactly when one of the three
    calls of the [try] block fails (the shell command, the success
    notification or the closing of the window), and the promise rejects
    exactly when, besides, the failure notification does not complete. *)
Theorem launcher_failure_path (w : World) (projectPath : string) :
  (In (ShowToast failure_toast) (fst (openProjectInWindsurf w projectPath))
   <-> exec_ok w (open_command projectPath) = false \/
       toast_ok w success_toast = false \/
       close_ok w = false) /\
  (snd (openProjectInWindsurf w projectPath) = Throw
   <-> (exec_ok w (open_command projectPath) = false \/
        toast_ok w success_toast = false \/
        close_ok w = false) /\
       toast_ok w failure_toast = false).
Proof.
  unfold openProjectInWindsurf, execAsync, showToast, closeMainWindow.
  destruct (exec_ok w (open_command projectPath));
    destruct (toast_ok w success_toast);
    destruct (toast_ok w failure_toast);
    destruct (close_ok w); simpl; unfold success_toast, failure_toast;
    intuition (try discriminate; try congruence; auto 6).
Qed.

Lemma launcher_failure_path_witness :
  exec_ok world_exec_fails (open_command "/Users/alice/dev/proj") = false /\
  In (ShowToast failure_toast)
     (fst (openProjectInWindsurf world_exec_fails "/Users/alice/dev/proj")).
Proof.
  split; [reflexivity|].
  apply (launcher_failure_path world_exec_fails "/Users/alice/dev/proj").
  left. reflexivity.
Defined.

Lemma append_inj_tail (p q : string) (c : Ascii.ascii) :
  (p ++ String c "")%string = (q ++ String c "")%string -> p = q.
Proof.
  revert q. induction p as [|a p IH]; intros [|b q] H.
  - reflexivity.
  - change (String c "" = String b (q ++ String c "")%string) in H.
    inversion H as [[Hc Hq]]. destruct q; discriminate Hq.
  - change (String a (p ++ String c "")%string = String c "") in H.
    inversion H as [[Hc Hp]]. destruct p; discriminate Hp.
  - change (String a (p ++ String c "")%string =
            String b (q ++ String c "")%string) in H.
    inversion H as [[Hab Hpq]]. f_equal. apply IH, Hpq.
Qed.

(** X13.  The shell command determines the path: two paths give the same
    command only when they are equal, and the command is always 19
    characters longer than the path. *)
Theorem open_command_injective (p q : string) :
  (open_command p = open_command q -> p = q) /\
  String.length (open_command p) = 19 + String.length p.
Proof.
  split.
  - unfold open_command, dquote. intros H.
    change (("open -a Windsurf " ++ String (ascii_of_nat 34)
               (p ++ String (ascii_of_nat 34) ""))%string =
            ("open -a Windsurf " ++ String (ascii_of_nat 34)
               (q ++ String (ascii_of_nat 34) ""))%string) in H.
    simpl in H. inversion H as [Hpq].
    apply append_inj_tail in Hpq. exact Hpq.
  - unfold open_command, dquote.
    change (String.length
              ("open -a Windsurf " ++ String (ascii_of_nat 34)
                 (p ++ String (ascii_of_nat 34) ""))%string =
            19 + String.length p).
    simpl. do 18 f_equal.
    induction p as [|a p IH]; [reflexivity|].
    change (String.length (String a (p ++ String (ascii_of_nat 34) "")%string)
            = S (S (String.length p))).
    simpl. rewrite IH. reflexivity.
Qed.

Lemma open_command_injective_witness :
  open_command "/Users/alice/a" = open_command "/Users/alice/a" /\
  String.length (open_command "/Users/alice/a") = 33.
Proof.
  split; [reflexivity|].
  apply (open_command_injective "/Users/alice/a" "/Users/alice/a").
Defined.
